(** * Shallow embedding of the dumux CI/documentation helper scripts

    - [bin/doc/getparameterlist.py]   : the parameter-list scraper
    - [.gitlab-ci/makepipelineconfig.py] : the pipeline generator
    - [bin/testing/runselectedtests.py]  : the test selection runner

    Python strings are [String.string]; the [str] methods the scripts use
    ([partition], [rpartition], [split], [count], [strip], [in], [join]) are
    written out below with their Python semantics.  Raised exceptions are
    modelled by the result type [res]. *)

From Stdlib Require Import String Ascii List Bool Arith Lia Sorting.Sorted DecimalString.
From Stdlib Require Import Permutation.
Import ListNotations.
Open Scope string_scope.

(** ** Python exceptions and the result monad *)

Inductive pyexn : Type :=
  | IOError (msg : string)
  | IndexError
  | TypeError
  | NameError (name : string)
  | KeyError (key : string)
  | ValueError (msg : string)
  | FileNotFoundError (path : string)
  | JSONDecodeError
  | CalledProcessError (argv : list string)
  | SystemExit (msg : string).

Inductive res (A : Type) : Type :=
  | Ok (a : A)
  | Raise (e : pyexn).
Arguments Ok {A} a.
Arguments Raise {A} e.

Definition bind {A B} (m : res A) (f : A -> res B) : res B :=
  match m with
  | Ok a => f a
  | Raise e => Raise e
  end.

Notation "'let*' x ':=' m 'in' f" := (bind m (fun x => f))
  (at level 200, x name, m at level 100, f at level 200).

(** [l[i]] on a Python list or string *)
Definition py_getitem {A} (l : list A) (i : nat) : res A :=
  match nth_error l i with
  | Some x => Ok x
  | None => Raise IndexError
  end.

(** ** Python [str] methods *)

Module Py.

(** the double-quote character, written by its code *)
Definition dq : string := String "034"%char EmptyString.
Definition nl : string := String "010"%char EmptyString.

Fixpoint drop (n : nat) (s : string) : string :=
  match n, s with
  | 0, _ => s
  | S n', String _ s' => drop n' s'
  | S _, EmptyString => EmptyString
  end.

(** [s.partition(k)] (the separator [k] is never empty in the scripts) *)
Fixpoint partition (s k : string) : string * string * string :=
  if prefix k s then (EmptyString, k, drop (String.length k) s)
  else match s with
       | EmptyString => (EmptyString, EmptyString, EmptyString)
       | String c s' => let '(a, m, b) := partition s' k in (String c a, m, b)
       end.

(** [s.rpartition(k)]: split at the last occurrence *)
Fixpoint rpartition (s k : string) : string * string * string :=
  match s with
  | EmptyString => (EmptyString, EmptyString, EmptyString)
  | String c s' =>
      match rpartition s' k with
      | (a, String m ms, b) => (String c a, String m ms, b)
      | (_, EmptyString, _) =>
          if prefix k s then (EmptyString, k, drop (String.length k) s)
          else (EmptyString, EmptyString, s)
      end
  end.

(** [s.split(k)]: each round consumes at least the separator, so
    [length s + 1] rounds always suffice *)
Fixpoint split_fuel (fuel : nat) (s k : string) : list string :=
  match fuel with
  | 0 => [s]
  | S f =>
      let '(a, m, b) := partition s k in
      match m with
      | EmptyString => [a]
      | _ => a :: split_fuel f b k
      end
  end.

Definition split (s k : string) : list string := split_fuel (S (String.length s)) s k.

(** [s.count(k)]: non-overlapping occurrences *)
Definition count (s k : string) : nat := pred (List.length (split s k)).

(** [k in s] *)
Fixpoint contains (k s : string) : bool :=
  prefix k s || match s with
                | EmptyString => false
                | String _ s' => contains k s'
                end.

Definition mem (c : ascii) (cs : string) : bool :=
  existsb (fun d => Ascii.eqb c d) (list_ascii_of_string cs).

Fixpoint lstrip (cs s : string) : string :=
  match s with
  | EmptyString => EmptyString
  | String c s' => if mem c cs then lstrip cs s' else s
  end.

Fixpoint rstrip (cs s : string) : string :=
  match s with
  | EmptyString => EmptyString
  | String c s' =>
      let r := rstrip cs s' in
      match r with
      | EmptyString => if mem c cs then EmptyString else String c EmptyString
      | _ => String c r
      end
  end.

(** [s.strip(cs)] *)
Definition strip (cs s : string) : string := lstrip cs (rstrip cs s).

Definition is_truthy (s : string) : bool :=
  match s with EmptyString => false | _ => true end.

(** the characters [str.strip()] removes by default ([str.isspace]), an
    [ascii] standing for the code point 0-255 it encodes *)
Definition whitespace : string :=
  String " " (String "009"%char (String "010"%char (String "011"%char
    (String "012"%char (String "013"%char (String "028"%char (String "029"%char
    (String "030"%char (String "031"%char (String "133"%char
    (String "160"%char EmptyString))))))))))).

(** the line boundaries of [str.splitlines] other than [\r] *)
Definition isLineBreak (c : ascii) : bool :=
  existsb (Ascii.eqb c) ["010"; "011"; "012"; "028"; "029"; "030"; "133"]%char.

(** [s.splitlines(keepends=True)], [cur] being the current line so far *)
Fixpoint splitlinesGo (s cur : string) : list string :=
  match s with
  | EmptyString => if is_truthy cur then [cur] else []
  | String c s' =>
      if Ascii.eqb c "013" then
        match s' with
        | String d s'' =>
            if Ascii.eqb d "010" then (cur ++ String c (String d EmptyString)) :: splitlinesGo s'' ""
            else (cur ++ String c EmptyString) :: splitlinesGo s' ""
        | EmptyString => [cur ++ String c EmptyString]
        end
      else if isLineBreak c then (cur ++ String c EmptyString) :: splitlinesGo s' ""
      else splitlinesGo s' (cur ++ String c EmptyString)
  end.

Definition splitlines (s : string) : list string := splitlinesGo s "".

(** ['%d' % n] *)
Definition str_int (n : nat) : string := NilEmpty.string_of_uint (Nat.to_uint n).

(** [sep.join(l)] *)
Definition join (sep : string) (l : list string) : string := String.concat sep l.


End Py.

Import Py.

(** ** A file system: paths mapped to file contents *)

Module FS.

Definition t := list (string * string).

Fixpoint read (fs : t) (path : string) : option string :=
  match fs with
  | [] => None
  | (p, c) :: fs' => if String.eqb p path then Some c else read fs' path
  end.

Definition exists_ (fs : t) (path : string) : bool :=
  match read fs path with Some _ => true | None => false end.

(** [open(path, 'w')] followed by writing [c] and closing *)
Fixpoint write (fs : t) (path c : string) : t :=
  match fs with
  | [] => [(path, c)]
  | (p, c') :: fs' =>
      if String.eqb p path then (p, c) :: fs' else (p, c') :: write fs' path c
  end.

End FS.

(** ** The parameter-list scraper ([bin/doc/getparameterlist.py]) *)

Module Scraper.

(** the dict [{'paramType': .., 'paramName': .., 'defaultValue': ..}]
    returned by [extractParamName] *)
Record param : Type := mkParam {
  paramType : string;
  paramName : string;
  defaultValue : option string
}.

Definition enclosedError (openKey closeKey s : string) : pyexn :=
  IOError ("Could not get content between " ++ dq ++ openKey ++ dq ++ " and "
           ++ dq ++ closeKey ++ dq ++ " in given string " ++ dq ++ s ++ dq).

(** the [while] loop of [getEnclosedContent]; every round consumes at least
    one [closeKey] of [rest], so [length string] rounds always suffice and
    the [fuel = 0] branch is never reached *)
Fixpoint enclosedLoop (fuel : nat) (s openKey closeKey result rest : string)
    : res string :=
  if Nat.eqb (count result openKey) (count result closeKey) then
    let '(_, _, after) := partition result openKey in
    let '(inner, _, _) := rpartition after closeKey in
    Ok inner
  else
    match fuel with
    | 0 => Raise (enclosedError openKey closeKey s)
    | S f =>
        let '(a, m, b) := partition rest closeKey in
        match m with
        | EmptyString => Raise (enclosedError openKey closeKey s)
        | _ => enclosedLoop f s openKey closeKey (result ++ a ++ closeKey) b
        end
    end.

Definition getEnclosedContent (string0 openKey closeKey : string) : res string :=
  let '(_, _, after) := partition string0 openKey in
  let s := openKey ++ after in
  let '(r0, _, r2) := partition s closeKey in
  enclosedLoop (String.length s) s openKey closeKey (r0 ++ closeKey) r2.

Definition py_last {A} (l : list A) : res A :=
  match rev l with
  | x :: _ => Ok x
  | [] => Raise IndexError
  end.

Definition multipleError : pyexn :=
  IOError ("Cannot process multiple occurrences of " ++ dq ++ "getParam" ++ dq
           ++ " in one line").

Definition nameError : pyexn := IOError "Could not correctly process parameter name".

(** [extractParamName]: [Ok None] is the empty dict [{}] *)
Definition extractParamName (line : string) : res (option param) :=
  let* sel :=
    if contains "getParamFromGroup<" line then
      let* l := py_getitem (split line "getParamFromGroup") 1 in Ok (Some (l, true))
    else if contains "getParam<" line then
      let* l := py_getitem (split line "getParam") 1 in Ok (Some (l, false))
    else Ok None in
  match sel with
  | None => Ok None
  | Some (line, hasGroup) =>
    if Nat.ltb 1 (count line "getParam") then Raise multipleError else
    let* line := py_getitem (split (strip " " (strip nl line)) ";") 0 in
    let* paramType := getEnclosedContent line "<" ">" in
    let '(_, _, functionArgs) := partition line ("<" ++ paramType ++ ">") in
    let* functionArgs := getEnclosedContent functionArgs "(" ")" in
    let functionArgs :=
      if hasGroup then let '(_, _, r) := partition functionArgs "," in r
      else functionArgs in
    let '(paramName, _, rest) := partition functionArgs "," in
    let defaultValue := if is_truthy rest then Some rest else None in
    let paramType := strip " " paramType in
    let paramName := strip " " paramName in
    let defaultValue :=
      match defaultValue with
      | Some d => Some (strip " " d)
      | None => None
      end in
    let chars := list_ascii_of_string paramName in
    let* first := py_getitem chars 0 in
    if negb (Ascii.eqb first "034"%char) then Raise nameError else
    let* last := py_last chars in
    if negb (Ascii.eqb last "034"%char) then Raise nameError else
    if contains " " paramName then Raise nameError else
    Ok (Some (mkParam paramType (strip dq paramName) defaultValue))
  end.

(** one entry of the [errors] dict of [getParamsFromFile] (printed at the end) *)
Record lineError : Type := mkLineError {
  errIdx : nat;
  errLine : string;
  errMessage : pyexn
}.

(** the [for lineIdx, line in enumerate(f)] loop of [getParamsFromFile]:
    an [IOError] is recorded, any other exception leaves the function *)
Fixpoint scanLines (lineIdx : nat) (lines : list string)
    : res (list param * list lineError) :=
  match lines with
  | [] => Ok ([], [])
  | line :: rest =>
      match extractParamName line with
      | Raise (IOError m) =>
          let* r := scanLines (S lineIdx) rest in
          let '(ps, es) := r in
          Ok (ps, mkLineError lineIdx (strip whitespace line) (IOError m) :: es)
      | Raise e => Raise e
      | Ok p =>
          let* r := scanLines (S lineIdx) rest in
          let '(ps, es) := r in
          Ok (match p with Some q => q :: ps | None => ps end, es)
      end
  end.

(** [getParamsFromFile]: the parameters and the errors it prints *)
Definition getParamsFromFile (lines : list string) : res (list param * list lineError) :=
  scanLines 0 lines.

(** [os.path.splitext] of a bare file name *)
Definition splitext (file : string) : string * string :=
  let '(root, m, ext) := rpartition file "." in
  match m with
  | EmptyString => (file, EmptyString)
  | _ => if forallb (fun c => Ascii.eqb c ".") (list_ascii_of_string root)
         then (file, EmptyString) else (root, "." ++ ext)
  end.

Definition isScanned (file : string) : bool :=
  let '(root, ext) := splitext file in
  String.eqb ext ".hh" && negb (String.eqb root "parameters").

(** the [os.walk] loop: the files met, with their lines *)
Fixpoint collectParameters (files : list (string * list string)) : res (list param) :=
  match files with
  | [] => Ok []
  | (file, lines) :: rest =>
      if isScanned file then
        let* r := getParamsFromFile lines in
        let* ps := collectParameters rest in
        Ok (fst r ++ ps)%list
      else collectParameters rest
  end.

(** a value of [parameterDict]: the first [params] dict met for the name,
    whose [defaultValue] and [paramType] became lists *)
Record entry : Type := mkEntry {
  eName : string;
  eTypes : list string;
  eDefaults : list (option string)
}.

(** one round of the [for params in parameters] loop; the dict keeps
    insertion order *)
Fixpoint addParam (d : list entry) (p : param) : list entry :=
  match d with
  | [] => [mkEntry (paramName p) [paramType p] [defaultValue p]]
  | e :: d' =>
      if String.eqb (eName e) (paramName p)
      then mkEntry (eName e) (eTypes e ++ [paramType p])%list
                   (eDefaults e ++ [defaultValue p])%list :: d'
      else e :: addParam d' p
  end.

Definition buildParameterDict (ps : list param) : list entry := fold_left addParam ps [].

(** [sorted(parameterDict.items())]: the keys are distinct, so any sort by
    key gives Python's order; insertion sort on [String.compare] (code
    point order, as Python compares strings) *)
Fixpoint insertSorted (e : entry) (l : list entry) : list entry :=
  match l with
  | [] => [e]
  | x :: xs => if String.leb (eName e) (eName x) then e :: l else x :: insertSorted e xs
  end.

Definition sortedParameterDict (ps : list param) : list entry :=
  fold_right insertSorted [] (buildParameterDict ps).

Definition tableRow (groupEntry paramName paramType defaultValue : string) : string :=
  " * | " ++ groupEntry ++ " | " ++ paramName ++ " | " ++ paramType ++ " | "
  ++ defaultValue ++ " | TODO: explanation |".

(** the body of the [for key in sortedParameterDict] loop: the new
    [previousGroupEntry], [hasGroup] and [tableEntry] *)
Definition tableStep (previousGroupEntry : option string) (e : entry)
    : res (option string * bool * string) :=
  let name := eName e in
  let hasGroup := negb (Nat.eqb (count name ".") 0) in
  let* groupEntry :=
    if hasGroup then py_getitem (split name ".") 0 else Ok "-" in
  let pName := if hasGroup then (let '(_, _, r) := partition name "." in r) else name in
  let* paramType := py_getitem (eTypes e) 0 in
  let* d0 := py_getitem (eDefaults e) 0 in
  let defaultValue := match d0 with Some d => d | None => EmptyString end in
  let '(previousGroupEntry, groupEntry) :=
    match previousGroupEntry with
    | Some p => if String.eqb groupEntry p then (previousGroupEntry, groupEntry)
                else (Some groupEntry, if hasGroup then "\b " ++ groupEntry else groupEntry)
    | None => (Some groupEntry, if hasGroup then "\b " ++ groupEntry else groupEntry)
    end in
  Ok (previousGroupEntry, hasGroup, tableRow groupEntry pName paramType defaultValue).

Fixpoint tableLoop (previousGroupEntry : option string) (es : list entry)
    (withGroup withoutGroup : list string) : res (list string * list string) :=
  match es with
  | [] => Ok (withGroup, withoutGroup)
  | e :: es' =>
      let* r := tableStep previousGroupEntry e in
      let '(prev, hasGroup, row) := r in
      if hasGroup then tableLoop prev es' (withGroup ++ [row])%list withoutGroup
      else tableLoop prev es' withGroup (withoutGroup ++ [row])%list
  end.

(** [tableEntries = tableEntriesWithoutGroup + tableEntriesWithGroup] *)
Definition tableEntries (ps : list param) : res (list string) :=
  let* r := tableLoop None (sortedParameterDict ps) [] [] in
  let '(withGroup, withoutGroup) := r in
  Ok (withoutGroup ++ withGroup)%list.

(** the module-level names bound when the script reaches the backup step
    (its imports, functions and globals); [copyfile] is not among them *)
Definition scriptGlobals : list string :=
  ["os"; "getEnclosedContent"; "extractParamName"; "getParamsFromFile";
   "parameters"; "rootDir"; "parameterDict"; "sortedParameterDict";
   "tableEntriesWithGroup"; "tableEntriesWithoutGroup"; "previousGroupEntry";
   "tableEntries"].

(** the Python builtins the script calls *)
Definition builtins : list string :=
  ["open"; "print"; "sorted"; "len"; "enumerate"; "IOError"].

Definition isBound (name : string) : bool :=
  existsb (String.eqb name) scriptGlobals || existsb (String.eqb name) builtins.

Definition parameterListPath (rootDir : string) : string :=
  rootDir ++ "/../doc/doxygen/extradoc/parameterlist.txt".
Definition parameterListBackupPath (rootDir : string) : string :=
  rootDir ++ "/../doc/doxygen/extradoc/parameterlist_old.txt".

Definition header : string :=
  String.concat nl
    ["/*!"; " *\file"; " *\ingroup Parameter"; " *";
     " *\brief List of currently useable run-time parameters"; " *";
     " * The listed run-time parameters are available in general,";
     " * but we point out that a certain model might not be able";
     " * to use every parameter!"; " *";
     " * | Group       | Parameter    | Type       | Default Value     | Explanation |";
     " * | :-          | :-           | :-         | :-                | :-          |";
     " * | -           | ParameterFile | std::string| executable.input  | name of the parameter file |";
     ""].

Definition outputContent (rows : list string) : string :=
  header ++ String.concat "" (map (fun e => e ++ nl) rows) ++ " */" ++ nl.

(** [copyfile(src, dst)] once the name resolves (as [shutil.copyfile]) *)
Definition copyfile (fs : FS.t) (src dst : string) : res FS.t :=
  match FS.read fs src with
  | Some c => Ok (FS.write fs dst c)
  | None => Raise (FileNotFoundError src)
  end.

(** lines 140-163: the backup, then the overwrite of [parameterlist.txt] *)
Definition writeParameterList (rootDir : string) (rows : list string) (fs : FS.t)
    : FS.t * res unit :=
  if isBound "copyfile" then
    match copyfile fs (parameterListPath rootDir) (parameterListBackupPath rootDir) with
    | Raise e => (fs, Raise e)
    | Ok fs1 => (FS.write fs1 (parameterListPath rootDir) (outputContent rows), Ok tt)
    end
  else (fs, Raise (NameError "copyfile")).

(** the whole script: scan the walked files, build the table, write it *)
Definition scraperMain (rootDir : string) (files : list (string * list string))
    (fs : FS.t) : FS.t * res unit :=
  match collectParameters files with
  | Raise e => (fs, Raise e)
  | Ok ps =>
      match tableEntries ps with
      | Raise e => (fs, Raise e)
      | Ok rows => writeParameterList rootDir rows fs
      end
  end.

End Scraper.

(** ** Test selection files (read by the generator and by the runner)

    A JSON object mapping each test name to an object with a [target]
    string; [json.load] keeps the order of the file.  A selection is the
    list of the test names with their [target] fields, in that order. *)

Definition selection := list (string * string).

(** ** The pipeline generator ([.gitlab-ci/makepipelineconfig.py]) *)

Module Pipeline.

(** [args['indentation']]: the default [4] is an [int]; a value given on the
    command line is a [str] (the option has no [type=int]) *)
Inductive indentArg : Type :=
  | IndentInt (n : nat)
  | IndentStr (s : string).

Record args : Type := mkArgs {
  outfile : string;
  testconfig : option string;
  template : string;
  indentation : indentArg
}.

(** the files, and [json.load] on a file's text (it raises on malformed
    JSON, or the [target] lookup raises [KeyError]) *)
Record world : Type := mkWorld {
  files : FS.t;
  json_load : string -> res selection
}.

Fixpoint str_repeat (n : nat) (s : string) : string :=
  match n with 0 => EmptyString | S n' => s ++ str_repeat n' s end.

(** [' '*args['indentation']] *)
Definition commandIndentation (i : indentArg) : res string :=
  match i with
  | IndentInt n => Ok (str_repeat n " ")
  | IndentStr _ => Raise TypeError
  end.

Definition duneConfigCommand : string := "dunecontrol --opts=$DUNE_OPTS_FILE --current all".

Definition makeScriptString (commandIndentation : string) (commands : list string) : string :=
  join nl (map (fun comm => commandIndentation ++ "- " ++ comm) commands).

Definition aggregateTargetLine (commandIndentation : string) (targetNames : list string)
    : string :=
  "|" ++ nl ++ commandIndentation ++ "  echo " ++ dq ++ "build_selected_tests: "
  ++ join " " targetNames ++ dq ++ " >> TestMakefile".

(** [buildCommand] and [testCommand] (lines 47-90) *)
Definition scriptCommands (commandIndentation : string) (config : option selection)
    : list string * list string :=
  match config with
  | None =>
      ([duneConfigCommand;
        "dunecontrol --opts=$DUNE_OPTS_FILE --current make -k -j4 build_tests"],
       ["cd build-cmake"; "dune-ctest -j4 --output-on-failure"])
  | Some config =>
      let testNames := map fst config in
      let targetNames := map snd config in
      let buildCommand :=
        match targetNames with
        | [] => [duneConfigCommand; "echo " ++ dq ++ "No tests to be built." ++ dq]
        | _ => [duneConfigCommand;
                "cd build-cmake";
                "rm -f TestMakefile && touch TestMakefile";
                "echo " ++ dq ++ "include CMakeFiles/Makefile2" ++ dq ++ " >> TestMakefile";
                "echo " ++ dq ++ dq ++ " >> TestMakefile";
                aggregateTargetLine commandIndentation targetNames;
                "make -f TestMakefile -j4 build_selected_tests"]
        end in
      let testCommand :=
        match testNames with
        | [] => ["echo " ++ dq ++ "No tests to be run, make empty report." ++ dq;
                 "cd build-cmake";
                 "dune-ctest -R NOOP"]
        | _ => ["cd build-cmake";
                "dune-ctest -j4 --output-on-failure -R " ++ join " " testNames]
        end in
      (buildCommand, testCommand)
  end.

(** [string.Template(...).substitute(mapping)]: [$$] is a [$], [$name] and
    [${name}] are replaced (names match [[_a-zA-Z][_a-zA-Z0-9]*]), an
    unknown name raises [KeyError], any other [$] raises [ValueError] with
    its line and column *)
Definition isIdStart (c : ascii) : bool :=
  let n := nat_of_ascii c in
  (Nat.leb 65 n && Nat.leb n 90) || (Nat.leb 97 n && Nat.leb n 122) || Nat.eqb n 95.
Definition isIdChar (c : ascii) : bool :=
  let n := nat_of_ascii c in isIdStart c || (Nat.leb 48 n && Nat.leb n 57).

Fixpoint lookupMapping (m : list (string * string)) (k : string) : res string :=
  match m with
  | [] => Raise (KeyError k)
  | (k', v) :: m' => if String.eqb k k' then Ok v else lookupMapping m' k
  end.

(** the scanner state: in text, after a [$], in a [$name], in a [${name};
    [TBraced n acc] remembers the length [n] of the template left after
    the [$] *)
Inductive tstate : Type :=
  | TText
  | TDollar
  | TNamed (acc : string)
  | TBraced (n : nat) (acc : string).

(** [Template._invalid]: the error for an invalid placeholder whose [$]
    ends [pre = self.template[:i]] *)
Definition invalidPlaceholder (pre : string) : pyexn :=
  let lines := splitlines pre in
  let lineno := match lines with [] => 1 | _ => List.length lines end in
  let colno := match lines with
               | [] => 1
               | _ => String.length pre - String.length (String.concat "" (removelast lines))
               end in
  ValueError ("Invalid placeholder in string: line " ++ str_int lineno
              ++ ", col " ++ str_int colno).

(** the invalid placeholder of [tpl] whose [$] is followed by [n] characters *)
Definition invalidAt (tpl : string) (n : nat) : pyexn :=
  invalidPlaceholder (substring 0 (String.length tpl - n) tpl).

Fixpoint substituteGo (tpl : string) (m : list (string * string)) (st : tstate) (s out : string)
    : res string :=
  match s with
  | EmptyString =>
      match st with
      | TText => Ok out
      | TNamed acc => let* v := lookupMapping m acc in Ok (out ++ v)
      | TDollar => Raise (invalidAt tpl 0)
      | TBraced n _ => Raise (invalidAt tpl n)
      end
  | String c s' =>
      match st with
      | TText =>
          if Ascii.eqb c "$" then substituteGo tpl m TDollar s' out
          else substituteGo tpl m TText s' (out ++ String c EmptyString)
      | TDollar =>
          if Ascii.eqb c "$" then substituteGo tpl m TText s' (out ++ "$")
          else if Ascii.eqb c "{" then
            substituteGo tpl m (TBraced (String.length s) EmptyString) s' out
          else if isIdStart c then substituteGo tpl m (TNamed (String c EmptyString)) s' out
          else Raise (invalidAt tpl (String.length s))
      | TNamed acc =>
          if isIdChar c then substituteGo tpl m (TNamed (acc ++ String c EmptyString)) s' out
          else
            let* v := lookupMapping m acc in
            if Ascii.eqb c "$" then substituteGo tpl m TDollar s' (out ++ v)
            else substituteGo tpl m TText s' (out ++ v ++ String c EmptyString)
      | TBraced n acc =>
          if Ascii.eqb c "}" then
            match acc with
            | EmptyString => Raise (invalidAt tpl n)
            | _ => let* v := lookupMapping m acc in substituteGo tpl m TText s' (out ++ v)
            end
          else if (if is_truthy acc then isIdChar c else isIdStart c)
          then substituteGo tpl m (TBraced n (acc ++ String c EmptyString)) s' out
          else Raise (invalidAt tpl n)
      end
  end.

Definition substitute (template : string) (m : list (string * string)) : res string :=
  substituteGo template m TText template EmptyString.

Definition templateMissing (template : string) : pyexn :=
  SystemExit ("Template file '" ++ template ++ "' could not be found").

(** [substituteAndWrite]: the existence check, then [open(outfile, 'w')]
    (truncating it) before the template is read *)
Definition substituteAndWrite (a : args) (mapping : list (string * string)) (fs : FS.t)
    : FS.t * res unit :=
  if negb (FS.exists_ fs (template a)) then (fs, Raise (templateMissing (template a)))
  else
    let fs2 := FS.write fs (outfile a) EmptyString in
    match FS.read fs2 (template a) with
    | None => (fs2, Raise (FileNotFoundError (template a)))
    | Some raw =>
        match substitute raw mapping with
        | Raise e => (fs2, Raise e)
        | Ok out => (FS.write fs2 (outfile a) out, Ok tt)
        end
    end.

(** the script body after argument parsing (lines 39-93) *)
Definition pipelineMain (w : world) (a : args) : FS.t * res unit :=
  match commandIndentation (indentation a) with
  | Raise e => (files w, Raise e)
  | Ok ind =>
      (* [with open(args['outfile'], 'w') as ymlFile:] *)
      let fs1 := FS.write (files w) (outfile a) EmptyString in
      let config :=
        match testconfig a with
        | Some p =>
            if is_truthy p then
              match FS.read fs1 p with
              | None => Raise (FileNotFoundError p)
              | Some c => let* cfg := json_load w c in Ok (Some cfg)
              end
            else Ok None
        | None => Ok None
        end in
      match config with
      | Raise e => (fs1, Raise e)
      | Ok config =>
          let '(buildCommand, testCommand) := scriptCommands ind config in
          substituteAndWrite a [("build_script", makeScriptString ind buildCommand);
                                ("test_script", makeScriptString ind testCommand)] fs1
      end
  end.

End Pipeline.

(** ** The test selection runner ([bin/testing/runselectedtests.py]) *)

Module Runner.

Record args : Type := mkArgs {
  all : bool;
  config : option string;
  script : string;
  build : bool;
  test : bool;
  buildflags : string;
  testflags : string
}.

(** what the run does outside: console output, files written, processes *)
Inductive event : Type :=
  | Print (s : string)
  | WriteFile (path content : string)
  | Run (argv : list string).

(** the files, [json.load], and the exit code of each external process *)
Record world : Type := mkWorld {
  files : FS.t;
  json_load : string -> res selection;
  proc_exit : list string -> nat
}.

(** a run: the events so far, threaded through; an exception stops it *)
Definition M (A : Type) : Type := list event -> list event * res A.

Definition ret {A} (a : A) : M A := fun ev => (ev, Ok a).
Definition raise {A} (e : pyexn) : M A := fun ev => (ev, Raise e).
Definition emit (e : event) : M unit := fun ev => ((ev ++ [e])%list, Ok tt).
Definition bindM {A B} (m : M A) (f : A -> M B) : M B :=
  fun ev => match m ev with
            | (ev', Ok a) => f a ev'
            | (ev', Raise e) => (ev', Raise e)
            end.
Definition liftRes {A} (r : res A) : M A :=
  match r with Ok a => ret a | Raise e => raise e end.

Notation "x <- m ;; f" := (bindM m (fun x => f)) (at level 61, m at next level, right associativity).
Notation "m ;;; f" := (bindM m (fun _ => f)) (at level 61, right associativity).

(** [subprocess.run(argv, check=True)] *)
Definition subprocessRun (w : world) (argv : list string) : M unit :=
  emit (Run argv) ;;;
  if Nat.eqb (proc_exit w argv) 0 then ret tt else raise (CalledProcessError argv).

Definition buildTests (w : world) (config : selection) (flags : list string) : M unit :=
  match config with
  | [] => emit (Print "No tests to be built")
  | _ =>
      emit (WriteFile "TestMakeFile"
              ("include CMakeFiles/Makefile2" ++ nl ++ "testselection: "
               ++ join " " (map snd config))) ;;;
      subprocessRun w (["make"; "-f"; "TestMakeFile"] ++ flags ++ ["testselection"])%list
  end.

Definition runTests (w : world) (config : selection) (script : string) (flags : list string)
    : M unit :=
  tests <- (match map fst config with
            | [] => emit (Print "No tests to be run. Letting dune-ctest produce empty report.") ;;;
                    ret ["NOOP"]
            | tests => ret tests
            end) ;;
  let call := if is_truthy script then ["./" ++ lstrip "./" script] else ["dune-ctest"] in
  subprocessRun w (call ++ flags ++ ["-R"] ++ tests)%list.

Definition neitherMessage : string := "Neither `build` not `test` flag was set. Exiting.".
Definition bothMessage : string :=
  "Error: both `config` and `all` specified. Please set only one of these arguments.".

Definition string_of_nat (n : nat) : string := NilEmpty.string_of_uint (Nat.to_uint n).

(** the [__main__] block after argument parsing; [args['config']] is tested
    by its truth value *)
Definition main (w : world) (a : args) : M unit :=
  if negb (build a) && negb (test a) then raise (SystemExit neitherMessage) else
  let configSet := match config a with Some c => is_truthy c | None => false end in
  if configSet && all a then raise (SystemExit bothMessage) else
  let buildFlags := split (buildflags a) " " in
  let testFlags := split (testflags a) " " in
  if all a then
    (if build a then emit (Print "Building all tests") ;;;
                     subprocessRun w (["make"] ++ buildFlags ++ ["build_tests"])%list
     else ret tt) ;;;
    (if test a then emit (Print "Running all tests") ;;;
                    subprocessRun w (["ctest"] ++ testFlags)%list
     else ret tt)
  else
    match config a with
    | None => raise TypeError
    | Some path =>
        match FS.read (files w) path with
        | None => raise (FileNotFoundError path)
        | Some text =>
            cfg <- liftRes (json_load w text) ;;
            emit (Print (string_of_nat (List.length cfg)
                         ++ " tests found in the configuration file")) ;;;
            (if build a then buildTests w cfg buildFlags else ret tt) ;;;
            (if test a then runTests w cfg (script a) testFlags else ret tt)
        end
    end.

Definition runMain (w : world) (a : args) : list event * res unit := main w a [].

(** the exit status: [sys.exit(msg)] and an uncaught exception give 1 *)
Definition exitStatus (r : res unit) : nat :=
  match r with Ok _ => 0 | Raise _ => 1 end.

End Runner.

(** * Helper predicates used in the statements and proofs below *)

Module Aux.

(** [c] does not occur in [x] *)
Definition char_free (c : ascii) (x : string) : bool :=
  forallb (fun d => negb (Ascii.eqb c d)) (list_ascii_of_string x).

(** number of occurrences of the character [c] in [s] *)
Definition ccount (c : ascii) (s : string) : nat :=
  List.length (filter (Ascii.eqb c) (list_ascii_of_string s)).

(** every character of [x] is one of [cs] *)
Definition all_in (cs x : string) : bool :=
  forallb (fun d => mem d cs) (list_ascii_of_string x).

(** [n] spaces *)
Fixpoint spaces (n : nat) : string :=
  match n with 0 => EmptyString | S n' => String " " (spaces n') end.

(** [s] has balanced [o]/[c] brackets, [d] of them being open already *)
Fixpoint bal_go (o c : ascii) (d : nat) (s : string) : bool :=
  match s with
  | EmptyString => Nat.eqb d 0
  | String x s' =>
      if Ascii.eqb x o then bal_go o c (S d) s'
      else if Ascii.eqb x c then
        match d with 0 => false | S d' => bal_go o c d' s' end
      else bal_go o c d s'
  end.

Definition balanced (o c : ascii) (s : string) : bool := bal_go o c 0 s.

(** every exception [m] may raise satisfies [P] *)
Definition raisesOnly {A} (P : pyexn -> Prop) (m : res A) : Prop :=
  forall e, m = Raise e -> P e.

(** the exceptions that abort [getParamsFromFile]: all but [IOError] *)
Definition uncaught (e : pyexn) : Prop := forall m, e <> IOError m.

(** ** The rows of the parameter table, entry by entry

    Names for what one round of the table loop computes from an entry of
    [sortedParameterDict], and the entry met just before it. *)

Definition isGrouped (e : Scraper.entry) : bool :=
  negb (Nat.eqb (count (Scraper.eName e) ".") 0).

(** the [groupEntry] before any prefix: the text before the first dot, or [-] *)
Definition groupLabel (e : Scraper.entry) : string :=
  if isGrouped e then hd "" (split (Scraper.eName e) ".") else "-".

Definition shortName (e : Scraper.entry) : string :=
  if isGrouped e then (let '(_, _, r) := partition (Scraper.eName e) "." in r)
  else Scraper.eName e.

Definition firstType (e : Scraper.entry) : string := hd "" (Scraper.eTypes e).

Definition firstDefault (e : Scraper.entry) : string :=
  match hd None (Scraper.eDefaults e) with Some d => d | None => "" end.

(** the entry before has the same [groupEntry] *)
Definition sameGroup (prev : option Scraper.entry) (e : Scraper.entry) : bool :=
  match prev with
  | Some p => String.eqb (groupLabel e) (groupLabel p)
  | None => false
  end.

(** the group column: the label, marked with [\b] when a run of a group starts *)
Definition runLabel (prev : option Scraper.entry) (e : Scraper.entry) : string :=
  if isGrouped e && negb (sameGroup prev e) then "\b " ++ groupLabel e else groupLabel e.

Definition renderRow (prev : option Scraper.entry) (e : Scraper.entry) : string :=
  Scraper.tableRow (runLabel prev e) (shortName e) (firstType e) (firstDefault e).

(** each entry paired with the one before it *)
Fixpoint withPrev {A} (prev : option A) (l : list A) : list (option A * A) :=
  match l with
  | [] => []
  | x :: l' => (prev, x) :: withPrev (Some x) l'
  end.

Definition renderRows (l : list (option Scraper.entry * Scraper.entry)) : list string :=
  map (fun pe => renderRow (fst pe) (snd pe)) l.

(** reading a row back: its default-value column is the third field from
    the right of the row split at [|], without its padding spaces *)
Definition defaultField (row : string) : string :=
  strip " " (nth 2 (rev (split row "|")) "").

(** the entries of [sortedParameterDict] have a first type and default *)
Definition wellFormed (e : Scraper.entry) : Prop :=
  Scraper.eTypes e <> [] /\ Scraper.eDefaults e <> [].

(** ** The shape of a line with one accessor call *)

(** the accessor a call names: [getParamFromGroup] when it passes a group
    argument, [getParam] otherwise *)
Definition accessor (group : option string) : string :=
  match group with Some _ => "getParamFromGroup" | None => "getParam" end.


(** [<T>(args)r]: the call from its template argument on, up to the first
    semicolon of the line *)
Definition callExpr (T args r : string) : string :=
  "<" ++ T ++ ">(" ++ args ++ ")" ++ r.


(** ** Names for [string.Template] placeholders and for process failures *)

(** a placeholder name [[_a-zA-Z][_a-zA-Z0-9]*] *)
Definition isIdent (k : string) : bool :=
  match k with
  | EmptyString => false
  | String c k' => Pipeline.isIdStart c && forallb Pipeline.isIdChar (list_ascii_of_string k')
  end.

(** [f] applied to the value of [r], if any *)
Definition resMap {A B} (f : A -> B) (r : res A) : res B := let* x := r in Ok (f x).

(** a part of the runner run with [check=True] semantics: whatever it adds
    to the events, a process in it that exits non-zero is its last event and
    the part raises [CalledProcessError] for it *)
Definition failStops {A} (w : Runner.world) (m : Runner.M A) : Prop :=
  forall ev, exists new, fst (m ev) = (ev ++ new)%list /\
    forall argv, In (Runner.Run argv) new -> Runner.proc_exit w argv <> 0 ->
      last new (Runner.Print "") = Runner.Run argv /\
      snd (m ev) = Raise (CalledProcessError argv).

(** ** What one line contributes to the result of [getParamsFromFile] *)

(** its parameter, if [extractParamName] returns one *)
Definition lineParams (line : string) : list Scraper.param :=
  match Scraper.extractParamName line with Ok (Some p) => [p] | _ => [] end.

(** its error record, if [extractParamName] raises an [IOError]; [il] is the
    line with its index *)
Definition lineErrors (il : nat * string) : list Scraper.lineError :=
  match Scraper.extractParamName (snd il) with
  | Raise (IOError m) => [Scraper.mkLineError (fst il) (strip whitespace (snd il)) (IOError m)]
  | _ => []
  end.

End Aux.

Import Aux.

(** * Facts about the Python string methods *)

Module StringFacts.

Lemma app_assoc_s : forall x y z : string, (x ++ y) ++ z = x ++ y ++ z.
Proof. induction x; intros; simpl; [reflexivity | now rewrite IHx]. Qed.

Lemma app_nil_r_s : forall x : string, x ++ "" = x.
Proof. induction x; simpl; [reflexivity | now rewrite IHx]. Qed.

Lemma length_app_s : forall x y, String.length (x ++ y) = String.length x + String.length y.
Proof. induction x; intros; simpl; [reflexivity | now rewrite IHx]. Qed.

Lemma prefix_nil : forall y, prefix "" y = true.
Proof. intros [|c y]; reflexivity. Qed.

Lemma prefix_refl_app : forall k y, prefix k (k ++ y) = true.
Proof.
  induction k; intros; simpl; [apply prefix_nil |].
  destruct (ascii_dec a a); [apply IHk | congruence].
Qed.

Lemma drop_app : forall x y, drop (String.length x) (x ++ y) = y.
Proof. induction x; intros; simpl; auto. Qed.

Lemma drop_app_le : forall i x y, i <= String.length x -> drop i (x ++ y) = drop i x ++ y.
Proof.
  induction i; intros x y H; [reflexivity |].
  destruct x; simpl in *; [lia | apply IHi; lia].
Qed.

Lemma drop_length : forall i x, String.length (drop i x) = String.length x - i.
Proof. induction i; intros [|c x]; simpl; auto. Qed.

Lemma prefix_app_r : forall k y z, prefix k y = true -> prefix k (y ++ z) = true.
Proof.
  induction k; intros y z H; [apply prefix_nil |].
  destruct y; simpl in *; [discriminate |].
  destruct (ascii_dec a a0); [apply IHk; exact H | discriminate].
Qed.

Lemma prefix_long : forall k y z,
  String.length k <= String.length y -> prefix k (y ++ z) = prefix k y.
Proof.
  induction k; intros y z H; [now rewrite !prefix_nil |].
  destruct y; simpl in *; [lia |].
  destruct (ascii_dec a a0); [apply IHk; lia | reflexivity].
Qed.

Lemma prefix_short : forall k y z,
  String.length y <= String.length k ->
  prefix k (y ++ z) = prefix y k && prefix (drop (String.length y) k) z.
Proof.
  induction k; intros y z H.
  - destruct y; simpl in *; [destruct z; reflexivity | lia].
  - destruct y; simpl in *; [reflexivity |].
    destruct (ascii_dec a a0), (ascii_dec a0 a); subst; try congruence.
    + apply IHk; lia.
    + reflexivity.
Qed.

Lemma prefix_trans : forall k1 k2 s,
  prefix k1 k2 = true -> prefix k2 s = true -> prefix k1 s = true.
Proof.
  induction k1; intros k2 s H1 H2; [apply prefix_nil |].
  destruct k2; simpl in H1; [discriminate |].
  destruct (ascii_dec a a0); [subst | discriminate].
  destruct s; simpl in H2; [discriminate |].
  destruct (ascii_dec a0 a); [subst | discriminate].
  simpl. destruct (ascii_dec a a); [eauto | congruence].
Qed.

(** ** [partition] *)

Lemma prefix_split : forall k s, prefix k s = true -> s = k ++ drop (String.length k) s.
Proof.
  induction k; intros s H; [reflexivity |].
  destruct s; simpl in H; [discriminate |].
  destruct (ascii_dec a a0); [subst | discriminate].
  simpl. f_equal. now apply IHk.
Qed.

Lemma partition_cases : forall s k,
  k <> "" ->
  let '(a, m, b) := partition s k in
  (m = "" /\ a = s /\ b = "") \/ (m = k /\ s = a ++ k ++ b).
Proof.
  induction s; intros k Hk.
  - destruct k; [congruence | simpl; left; auto].
  - cbn [partition]. destruct (prefix k (String a s)) eqn:E.
    + right. split; [reflexivity |]. now apply prefix_split.
    + specialize (IHs k Hk). destruct (partition s k) as [[a' m'] b'].
      destruct IHs as [[-> [-> ->]] | [-> ->]]; [left | right]; auto.
Qed.

Lemma partition_prefix : forall k y, prefix k y = true ->
  partition y k = ("", k, drop (String.length k) y).
Proof. intros k [|c y] H; cbn [partition]; rewrite H; reflexivity. Qed.

Lemma partition_app_l : forall x t k,
  (forall i, i < String.length x -> prefix k (drop i x ++ t) = false) ->
  partition (x ++ t) k =
  (let '(a, m, b) := partition t k in (x ++ a, m, b)).
Proof.
  induction x; intros t k H; simpl.
  - destruct (partition t k) as [[a m] b]; reflexivity.
  - pose proof (H 0 ltac:(simpl; lia)) as H0. simpl in H0. rewrite H0.
    rewrite IHx; [destruct (partition t k) as [[a' m] b]; reflexivity |].
    intros i Hi. apply (H (S i)). simpl; lia.
Qed.

Lemma partition_app_k : forall x k y,
  (forall i, i < String.length x -> prefix k (drop i x ++ k ++ y) = false) ->
  partition (x ++ k ++ y) k = (x, k, y).
Proof.
  intros x k y H. rewrite partition_app_l by exact H.
  rewrite partition_prefix by apply prefix_refl_app.
  rewrite drop_app. now rewrite app_nil_r_s.
Qed.

(** ** single characters *)


Lemma char_free_cons : forall c d x,
  char_free c (String d x) = negb (Ascii.eqb c d) && char_free c x.
Proof. reflexivity. Qed.

Lemma char_free_app : forall c x y,
  char_free c (x ++ y) = char_free c x && char_free c y.
Proof.
  induction x; intros; [reflexivity |].
  simpl (String a x ++ y). rewrite !char_free_cons, IHx. apply andb_assoc.
Qed.

Lemma prefix_char : forall c d s,
  prefix (String c "") (String d s) = Ascii.eqb c d.
Proof.
  intros. simpl. rewrite prefix_nil. destruct (ascii_dec c d), (Ascii.eqb_spec c d); congruence.
Qed.

Lemma char_free_drop : forall c x t i, char_free c x = true ->
  i < String.length x -> prefix (String c "") (drop i x ++ t) = false.
Proof.
  intros c x t i. revert x. induction i; intros [|d x] H Hi; simpl in *; try lia.
  - rewrite char_free_cons in H. apply andb_true_iff in H as [H _].
    destruct (ascii_dec c d); [subst; rewrite Ascii.eqb_refl in H; discriminate |].
    reflexivity.
  - rewrite char_free_cons in H. apply andb_true_iff in H as [_ H].
    apply IHi; [exact H | lia].
Qed.

Lemma partition_char : forall c x y, char_free c x = true ->
  partition (x ++ String c y) (String c "") = (x, String c "", y).
Proof.
  intros c x y H. apply (partition_app_k x (String c "") y).
  intros i Hi. apply char_free_drop; assumption.
Qed.

Lemma partition_char_absent : forall c x, char_free c x = true ->
  partition x (String c "") = (x, "", "").
Proof.
  intros c x H. rewrite <- (app_nil_r_s x) at 1.
  rewrite partition_app_l by (intros; apply char_free_drop; assumption).
  simpl. now rewrite app_nil_r_s.
Qed.

(** ** [split] and [count] *)

Lemma split_fuel_irrel : forall f1 f2 s k, k <> "" ->
  String.length s < f1 -> String.length s < f2 -> split_fuel f1 s k = split_fuel f2 s k.
Proof.
  induction f1; intros f2 s k Hk H1 H2; [lia |].
  destruct f2; [lia |]. cbn [split_fuel].
  pose proof (partition_cases s k Hk) as Hc.
  destruct (partition s k) as [[a m] b].
  destruct Hc as [[-> [-> ->]] | [-> ->]]; [reflexivity |].
  destruct k as [|c k']; [congruence |]. f_equal.
  rewrite !length_app_s in H1, H2. simpl in H1, H2.
  apply IHf1; [congruence | lia | lia].
Qed.

Lemma split_eq : forall s k, k <> "" ->
  split s k = let '(a, m, b) := partition s k in
              match m with EmptyString => [a] | _ => a :: split b k end.
Proof.
  intros s k Hk. unfold split at 1. cbn [split_fuel].
  pose proof (partition_cases s k Hk) as Hc.
  destruct (partition s k) as [[a m] b].
  destruct Hc as [[-> [-> ->]] | [-> ->]]; [reflexivity |].
  destruct k as [|c k']; [congruence |]. f_equal.
  unfold split. apply split_fuel_irrel; [congruence | |];
  try rewrite !length_app_s; simpl; lia.
Qed.

Lemma split_absent : forall s k, k <> "" -> partition s k = (s, "", "") -> split s k = [s].
Proof. intros s k Hk H. rewrite split_eq, H by exact Hk. reflexivity. Qed.

Lemma split_found : forall s k a b, k <> "" -> partition s k = (a, k, b) ->
  split s k = a :: split b k.
Proof.
  intros s k a b Hk H. rewrite split_eq, H by exact Hk.
  destruct k; [congruence | reflexivity].
Qed.

Lemma split_not_nil : forall s k, split s k <> [].
Proof.
  intros s k. unfold split. cbn [split_fuel].
  destruct (partition s k) as [[a m] b]. destruct m; discriminate.
Qed.

Lemma count_absent : forall s k, k <> "" -> partition s k = (s, "", "") -> count s k = 0.
Proof. intros s k Hk H. unfold count. now rewrite split_absent. Qed.


Lemma ccount_cons : forall c d s,
  ccount c (String d s) = (if Ascii.eqb c d then 1 else 0) + ccount c s.
Proof. intros. unfold ccount. simpl. destruct (Ascii.eqb c d); reflexivity. Qed.

Lemma ccount_app : forall c x y, ccount c (x ++ y) = ccount c x + ccount c y.
Proof.
  induction x; intros; [reflexivity |].
  simpl (String a x ++ y). rewrite !ccount_cons, IHx. lia.
Qed.

Lemma ccount_free : forall c x, char_free c x = true -> ccount c x = 0.
Proof.
  induction x; intros H; [reflexivity |].
  rewrite char_free_cons in H. apply andb_true_iff in H as [H1 H2].
  rewrite ccount_cons, IHx by exact H2. destruct (Ascii.eqb c a); [discriminate | reflexivity].
Qed.

Lemma first_occurrence : forall c s, char_free c s = false ->
  exists a b, char_free c a = true /\ s = a ++ String c b.
Proof.
  induction s; intros H; [discriminate |].
  rewrite char_free_cons in H. destruct (Ascii.eqb_spec c a) as [<- | Hne].
  - exists "", s. split; reflexivity.
  - simpl in H. destruct (IHs H) as (x & y & Hx & ->).
    exists (String a x), y. split; [| reflexivity].
    rewrite char_free_cons, Hx. destruct (Ascii.eqb_spec c a); [congruence | reflexivity].
Qed.

Lemma count_char : forall s c, count s (String c "") = ccount c s.
Proof.
  intros s c. remember (String.length s) as n eqn:En.
  revert s En. induction n as [n IH] using lt_wf_ind. intros s En.
  destruct (char_free c s) eqn:F.
  - rewrite count_absent, ccount_free; auto; [discriminate |].
    now apply partition_char_absent.
  - destruct (first_occurrence c s F) as (a & b & Ha & ->).
    unfold count. rewrite (split_found _ _ a b) by (discriminate || now apply partition_char).
    simpl List.length.
    rewrite ccount_app, ccount_cons, ccount_free, Ascii.eqb_refl by exact Ha.
    specialize (IH (String.length b)). unfold count in IH.
    rewrite <- IH; [| rewrite En, length_app_s; simpl; lia | reflexivity].
    destruct (split b (String c "")) eqn:E; [now apply split_not_nil in E | reflexivity].
Qed.

(** ** [in] *)

Lemma contains_cons : forall k d s,
  contains k (String d s) = prefix k (String d s) || contains k s.
Proof. reflexivity. Qed.

Lemma contains_app_l : forall k x y,
  (forall i, i < String.length x -> prefix k (drop i x ++ y) = false) ->
  contains k (x ++ y) = contains k y.
Proof.
  induction x; intros y H; [reflexivity |].
  simpl (String a x ++ y). rewrite contains_cons.
  pose proof (H 0 ltac:(simpl; lia)) as H0.
  change (drop 0 (String a x) ++ y) with (String a (x ++ y)) in H0. rewrite H0.
  apply IHx. intros i Hi. apply (H (S i)). simpl; lia.
Qed.

Lemma contains_false_drop : forall k s i, contains k s = false ->
  prefix k (drop i s) = false.
Proof.
  intros k s i. revert s. induction i; intros s H.
  - destruct s; cbn [contains drop] in *; apply orb_false_iff in H; apply H.
  - destruct s; cbn [contains drop] in *.
    + apply orb_false_iff in H. apply H.
    + apply orb_false_iff in H as [_ H]. now apply IHi.
Qed.

Lemma contains_mono : forall k1 k2 s, prefix k1 k2 = true ->
  contains k1 s = false -> contains k2 s = false.
Proof.
  induction s; intros Hp H.
  - cbn [contains] in *. rewrite orb_false_r in *.
    destruct (prefix k2 "") eqn:E; [| reflexivity].
    rewrite (prefix_trans _ _ _ Hp E) in H. discriminate.
  - rewrite contains_cons in *. apply orb_false_iff in H as [H1 H2].
    rewrite IHs by assumption. rewrite orb_false_r.
    destruct (prefix k2 (String a s)) eqn:E; [| reflexivity].
    rewrite (prefix_trans _ _ _ Hp E) in H1. discriminate.
Qed.

(** a key whose first character does not occur again cannot start inside a
    text free of it and run into a following text that starts with that
    character *)
Lemma drop_first_char : forall c k' j, char_free c k' = true -> j < String.length k' ->
  exists d r, drop j k' = String d r /\ d <> c.
Proof.
  induction k'; intros j H Hj; simpl in Hj; [lia |].
  rewrite char_free_cons in H. apply andb_true_iff in H as [H1 H2].
  destruct j.
  - exists a, k'. split; [reflexivity |]. intros ->. now rewrite Ascii.eqb_refl in H1.
  - simpl. apply IHk'; [exact H2 | lia].
Qed.

Lemma no_border : forall c k' x u, char_free c k' = true ->
  contains (String c k') x = false ->
  forall i, i < String.length x -> prefix (String c k') (drop i x ++ String c u) = false.
Proof.
  intros c k' x u Hk Hx i Hi.
  pose proof (contains_false_drop _ _ i Hx) as Hy.
  remember (drop i x) as y eqn:Ey.
  assert (Hly : 0 < String.length y) by (subst y; rewrite drop_length; lia).
  destruct (Nat.le_gt_cases (String.length (String c k')) (String.length y)) as [Hl | Hl].
  - rewrite prefix_long by exact Hl. exact Hy.
  - rewrite prefix_short by lia.
    destruct y as [|d y']; simpl in Hly; [lia |].
    simpl (String.length (String d y')). cbn [drop].
    simpl in Hl.
    destruct (drop_first_char c k' (String.length y') Hk ltac:(lia)) as (e & r & -> & Hne).
    simpl. destruct (ascii_dec e c); [congruence |]. apply andb_false_r.
Qed.

(** ** [strip] *)

Lemma lstrip_keep : forall cs d z, mem d cs = false -> lstrip cs (String d z) = String d z.
Proof. intros cs d z H. simpl. now rewrite H. Qed.

Lemma lstrip_all_app : forall cs x z, all_in cs x = true -> lstrip cs (x ++ z) = lstrip cs z.
Proof.
  induction x; intros z H; [reflexivity |].
  unfold all_in in H. simpl in H. apply andb_true_iff in H as [H1 H2].
  simpl. rewrite H1. now apply IHx.
Qed.

Lemma rstrip_all : forall cs y, all_in cs y = true -> rstrip cs y = "".
Proof.
  induction y; intros H; [reflexivity |].
  unfold all_in in H. simpl in H. apply andb_true_iff in H as [H1 H2].
  simpl. rewrite IHy by exact H2. now rewrite H1.
Qed.

Lemma rstrip_keep : forall cs x d y, mem d cs = false ->
  rstrip cs (x ++ String d y) = x ++ String d (rstrip cs y).
Proof.
  induction x; intros d y H.
  - simpl. destruct (rstrip cs y); [now rewrite H | reflexivity].
  - simpl. rewrite IHx by exact H. destruct x; reflexivity.
Qed.



(** ** [rpartition] on a text ending in the key character *)

Lemma rpartition_last : forall c x,
  rpartition (x ++ String c "") (String c "") = (x, String c "", "").
Proof.
  induction x; simpl.
  - destruct (ascii_dec c c); [reflexivity | congruence].
  - rewrite IHx. reflexivity.
Qed.

(** ** bracket matching in [getEnclosedContent] *)

Lemma ccount_nil : forall c, ccount c "" = 0.
Proof. reflexivity. Qed.

Lemma bal_go_spec : forall o c, o <> c -> forall X d, bal_go o c d X = true ->
  (forall P Q, X = P ++ Q -> ccount c P <= d + ccount o P) /\
  d + ccount o X = ccount c X.
Proof.
  intros o c Hoc. induction X as [|x X IH]; intros d H.
  - simpl in H. apply Nat.eqb_eq in H. subst. split; [| reflexivity].
    intros P Q HPQ. destruct P; [rewrite !ccount_nil; lia | discriminate].
  - simpl in H. rewrite !ccount_cons.
    destruct (Ascii.eqb_spec x o) as [Hx | Hxo]; [subst x |].
    + destruct (IH _ H) as [H1 H2].
      rewrite (proj2 (Ascii.eqb_neq c o)) by congruence. rewrite Ascii.eqb_refl.
      split; [| lia].
      intros [|p P] Q HPQ; [rewrite !ccount_nil; lia |]. injection HPQ as Hp HPQ; subst p.
      rewrite !ccount_cons, Ascii.eqb_refl, (proj2 (Ascii.eqb_neq c o)) by congruence.
      specialize (H1 P Q HPQ). lia.
    + rewrite (proj2 (Ascii.eqb_neq o x)) by congruence.
      destruct (Ascii.eqb_spec x c) as [Hx | Hxc]; [subst x |].
      * destruct d as [|d]; [discriminate |].
        destruct (IH _ H) as [H1 H2]. rewrite Ascii.eqb_refl. split; [| lia].
        intros [|p P] Q HPQ; [rewrite !ccount_nil; lia |]. injection HPQ as Hp HPQ; subst p.
        rewrite !ccount_cons, Ascii.eqb_refl, (proj2 (Ascii.eqb_neq o c)) by congruence.
        specialize (H1 P Q HPQ). lia.
      * destruct (IH _ H) as [H1 H2].
        rewrite (proj2 (Ascii.eqb_neq c x)) by congruence. split; [| lia].
        intros [|p P] Q HPQ; [rewrite !ccount_nil; lia |]. injection HPQ as Hp HPQ; subst p.
        rewrite !ccount_cons, (proj2 (Ascii.eqb_neq c x)), (proj2 (Ascii.eqb_neq o x))
          by congruence.
        specialize (H1 P Q HPQ). lia.
Qed.

Lemma enclosedLoop_eq : forall fuel s o c result rest,
  Scraper.enclosedLoop fuel s o c result rest =
  if Nat.eqb (count result o) (count result c) then
    let '(_, _, after) := partition result o in
    let '(inner, _, _) := rpartition after c in
    Ok inner
  else
    match fuel with
    | 0 => Raise (Scraper.enclosedError o c s)
    | S f =>
        let '(a, m, b) := partition rest c in
        match m with
        | EmptyString => Raise (Scraper.enclosedError o c s)
        | _ => Scraper.enclosedLoop f s o c (result ++ a ++ c) b
        end
    end.
Proof. intros [|f]; reflexivity. Qed.

Lemma enclosed_done : forall o c X w s fuel, o <> c -> balanced o c X = true ->
  Scraper.enclosedLoop fuel s (String o "") (String c "") (String o (X ++ String c "")) w
  = Ok X.
Proof.
  intros o c X w s fuel Hoc HX.
  destruct (bal_go_spec o c Hoc X 0 HX) as [_ Hb].
  rewrite enclosedLoop_eq, !count_char, !ccount_cons, !ccount_app, !ccount_cons, !ccount_nil,
    !Ascii.eqb_refl, (proj2 (Ascii.eqb_neq c o)), (proj2 (Ascii.eqb_neq o c)) by congruence.
  replace (Nat.eqb _ _) with true by (symmetry; apply Nat.eqb_eq; lia).
  rewrite partition_prefix by (simpl; rewrite prefix_nil; destruct (ascii_dec o o); congruence).
  simpl (drop _ _). now rewrite rpartition_last.
Qed.

Lemma enclosed_step : forall o c X w s, o <> c -> balanced o c X = true ->
  forall Q P fuel, String.length Q < fuel -> X = P ++ String c Q ->
  Scraper.enclosedLoop fuel s (String o "") (String c "") (String o (P ++ String c ""))
    (Q ++ String c w) = Ok X.
Proof.
  intros o c X w s Hoc HX Q.
  remember (String.length Q) as n eqn:En. revert Q En.
  induction n as [n IH] using lt_wf_ind. intros Q En P fuel Hf HPQ.
  destruct (bal_go_spec o c Hoc X 0 HX) as [Hpre _].
  specialize (Hpre (P ++ String c "") Q).
  rewrite app_assoc_s in Hpre. specialize (Hpre HPQ).
  rewrite ccount_app, ccount_app, !ccount_cons, !ccount_nil, Ascii.eqb_refl,
    (proj2 (Ascii.eqb_neq o c)) in Hpre by congruence.
  rewrite enclosedLoop_eq, !count_char, !ccount_cons, !ccount_app, !ccount_cons, !ccount_nil,
    !Ascii.eqb_refl, (proj2 (Ascii.eqb_neq c o)), (proj2 (Ascii.eqb_neq o c)) by congruence.
  replace (Nat.eqb _ _) with false by (symmetry; apply Nat.eqb_neq; lia).
  destruct fuel as [|f]; [lia |].
  destruct (char_free c Q) eqn:F.
  - rewrite partition_char by exact F.
    replace (String o (P ++ String c "") ++ Q ++ String c "")
      with (String o (X ++ String c "")).
    + now apply enclosed_done.
    + subst X. simpl. f_equal. rewrite !app_assoc_s. reflexivity.
  - destruct (first_occurrence c Q F) as (Q1 & Q2 & HQ1 & HQ).
    subst Q. rewrite app_assoc_s. simpl (String c Q2 ++ String c w).
    rewrite partition_char by exact HQ1.
    rewrite length_app_s in En. simpl in En.
    replace (String o (P ++ String c "") ++ Q1 ++ String c "")
      with (String o ((P ++ String c Q1) ++ String c "")).
    + apply (IH (String.length Q2)); [lia | reflexivity | lia |].
      subst X. rewrite app_assoc_s. reflexivity.
    + simpl. f_equal. rewrite !app_assoc_s. reflexivity.
Qed.

Lemma getEnclosedContent_balanced : forall o c X w, o <> c -> balanced o c X = true ->
  Scraper.getEnclosedContent (String o (X ++ String c w)) (String o "") (String c "") = Ok X.
Proof.
  intros o c X w Hoc HX. unfold Scraper.getEnclosedContent.
  rewrite partition_prefix by (simpl; rewrite prefix_nil; destruct (ascii_dec o o); congruence).
  simpl (drop _ _). simpl (String o "" ++ _).
  destruct (char_free c X) eqn:F.
  - change (String o (X ++ String c w)) with (String o X ++ String c w).
    rewrite partition_char
      by (rewrite char_free_cons, F, (proj2 (Ascii.eqb_neq c o)) by congruence; reflexivity).
    simpl (String o X ++ String c ""). now apply enclosed_done.
  - destruct (first_occurrence c X F) as (X1 & X2 & HX1 & HX').
    assert (E : String o (X ++ String c w) = String o X1 ++ String c (X2 ++ String c w)).
    { rewrite HX'. simpl. f_equal. now rewrite app_assoc_s. }
    rewrite E, partition_char
      by (rewrite char_free_cons, HX1, (proj2 (Ascii.eqb_neq c o)) by congruence; reflexivity).
    simpl (String o X1 ++ String c "").
    apply enclosed_step; auto.
    rewrite length_app_s. simpl. rewrite length_app_s. simpl. lia.
Qed.

(** splitting at a character commutes with appending that character *)
Lemma split_app_char : forall c x y,
  split (x ++ String c y) (String c "") = (split x (String c "") ++ split y (String c ""))%list.
Proof.
  intros c x. remember (String.length x) as n eqn:En. revert x En.
  induction n as [n IH] using lt_wf_ind. intros x En y.
  destruct (char_free c x) eqn:F.
  - rewrite (split_found _ _ x y) by (discriminate || now apply partition_char).
    rewrite (split_absent x) by (discriminate || now apply partition_char_absent).
    reflexivity.
  - destruct (first_occurrence c x F) as (a & b & Ha & ->).
    rewrite app_assoc_s. simpl (String c b ++ _).
    rewrite (split_found _ _ a (b ++ String c y)) by (discriminate || now apply partition_char).
    rewrite (split_found (a ++ String c b) _ a b) by (discriminate || now apply partition_char).
    rewrite length_app_s in En. simpl in En.
    rewrite (IH (String.length b) ltac:(lia) b eq_refl y). reflexivity.
Qed.

End StringFacts.

Import StringFacts.

(** * Facts about the scraper's functions *)

Module ScraperFacts.
Import Scraper.

Lemma partition_absent : forall k s, k <> "" -> contains k s = false ->
  partition s k = (s, "", "").
Proof.
  intros k s Hk. induction s as [|a s IH]; intros H.
  - destruct k; [congruence | reflexivity].
  - rewrite contains_cons in H. apply orb_false_iff in H as [H1 H2].
    cbn [partition]. rewrite H1, IH by exact H2. reflexivity.
Qed.

Lemma contains_here : forall k x y, contains k (x ++ k ++ y) = true.
Proof.
  intros k x y. induction x as [|a x IH].
  - simpl (EmptyString ++ _). destruct (k ++ y) as [|d s] eqn:E;
      cbn [contains]; rewrite <- E, prefix_refl_app; reflexivity.
  - simpl (String a x ++ _). rewrite contains_cons, IH. apply orb_true_r.
Qed.

Lemma contains_char : forall c s, contains (String c "") s = negb (char_free c s).
Proof.
  intros c. induction s as [|a s IH]; [reflexivity |].
  rewrite contains_cons, char_free_cons, IH. cbn [prefix]. rewrite prefix_nil.
  destruct (ascii_dec c a) as [<- | Hne]; [now rewrite Ascii.eqb_refl |].
  apply Ascii.eqb_neq in Hne. rewrite Hne. reflexivity.
Qed.

Lemma count_no_occurrence : forall k s, k <> "" -> contains k s = false -> count s k = 0.
Proof. intros. apply count_absent; [assumption |]. now apply partition_absent. Qed.

(** [line.split(marker)] on a line with a single occurrence of the marker *)
Lemma split_marker : forall c k' pre t, char_free c k' = true ->
  contains (String c k') pre = false -> contains (String c k') t = false ->
  split (pre ++ String c k' ++ t) (String c k') = [pre; t].
Proof.
  intros c k' pre t Hk Hpre Ht.
  rewrite (split_found _ _ pre t) by
    (discriminate || (apply partition_app_k; intros i Hi; now apply no_border)).
  rewrite split_absent by (discriminate || now apply partition_absent).
  reflexivity.
Qed.

Lemma getParam_prefix_group : prefix "getParam" "getParamFromGroup" = true.
Proof. reflexivity. Qed.

Lemma getParam_prefix_group_lt : prefix "getParam" "getParamFromGroup<" = true.
Proof. reflexivity. Qed.

Lemma call_tail : forall k T a r w,
  k ++ callExpr T a r ++ ";" ++ w = (k ++ "<") ++ ((T ++ ">(" ++ a ++ ")" ++ r) ++ ";" ++ w).
Proof. intros. rewrite app_assoc_s. reflexivity. Qed.

(** the call's own accessor is found by the [in] test *)
Lemma contains_call : forall k pre T a r w,
  contains (k ++ "<") (pre ++ k ++ callExpr T a r ++ ";" ++ w) = true.
Proof. intros. rewrite call_tail. apply contains_here. Qed.

(** a [getParam] call is not taken for a [getParamFromGroup] one *)
Lemma no_group_call : forall pre T a r w,
  contains "getParam" pre = false ->
  contains "getParam" (callExpr T a r ++ ";" ++ w) = false ->
  contains "getParamFromGroup<" (pre ++ "getParam" ++ callExpr T a r ++ ";" ++ w) = false.
Proof.
  intros pre T a r w Hpre Ht.
  rewrite contains_app_l.
  - rewrite contains_app_l.
    + exact (contains_mono _ _ _ getParam_prefix_group_lt Ht).
    + intros i Hi. simpl in Hi. do 8 (destruct i as [|i]; [reflexivity |]). lia.
  - intros i Hi. apply (no_border "g" "etParamFromGroup<" pre ("etParam" ++ callExpr T a r ++ ";" ++ w));
      [reflexivity | exact (contains_mono _ _ _ getParam_prefix_group_lt Hpre) | exact Hi].
Qed.

(** cutting the call at the first semicolon *)
Lemma strip_cut : forall T a r w, char_free ";" (callExpr T a r) = true ->
  py_getitem (split (strip " " (strip nl (callExpr T a r ++ ";" ++ w))) ";") 0
  = Ok (callExpr T a r).
Proof.
  intros T a r w H. unfold strip.
  change (";" ++ w) with (String ";" w).
  rewrite rstrip_keep by reflexivity.
  change (lstrip nl (callExpr T a r ++ String ";" (rstrip nl w)))
    with (lstrip nl (String "<" ((T ++ ">(" ++ a ++ ")" ++ r) ++ String ";" (rstrip nl w)))).
  rewrite lstrip_keep by reflexivity.
  change (String "<" ((T ++ ">(" ++ a ++ ")" ++ r) ++ String ";" (rstrip nl w)))
    with (callExpr T a r ++ String ";" (rstrip nl w)).
  rewrite rstrip_keep by reflexivity.
  change (lstrip " " (callExpr T a r ++ String ";" (rstrip " " (rstrip nl w))))
    with (lstrip " " (String "<" ((T ++ ">(" ++ a ++ ")" ++ r)
                                  ++ String ";" (rstrip " " (rstrip nl w))))).
  rewrite lstrip_keep by reflexivity.
  change (String "<" ((T ++ ">(" ++ a ++ ")" ++ r) ++ String ";" (rstrip " " (rstrip nl w))))
    with (callExpr T a r ++ String ";" (rstrip " " (rstrip nl w))).
  rewrite (split_found _ _ (callExpr T a r) (rstrip " " (rstrip nl w)))
    by (discriminate || now apply partition_char).
  reflexivity.
Qed.

(** the template argument between the first matching [<] and [>] *)
Lemma enclosed_type : forall T a r, balanced "<" ">" T = true ->
  getEnclosedContent (callExpr T a r) "<" ">" = Ok T.
Proof.
  intros T a r H.
  exact (getEnclosedContent_balanced "<" ">" T ("(" ++ a ++ ")" ++ r) ltac:(discriminate) H).
Qed.

Lemma partition_type : forall T a r,
  partition (callExpr T a r) ("<" ++ T ++ ">") = ("", "<" ++ T ++ ">", "(" ++ a ++ ")" ++ r).
Proof.
  intros T a r.
  replace (callExpr T a r) with (("<" ++ T ++ ">") ++ ("(" ++ a ++ ")" ++ r))
    by (unfold callExpr; rewrite !app_assoc_s; reflexivity).
  rewrite partition_prefix by apply prefix_refl_app. now rewrite drop_app.
Qed.

(** the function arguments between the first matching [(] and [)] *)
Lemma enclosed_args : forall a r, balanced "(" ")" a = true ->
  getEnclosedContent ("(" ++ a ++ ")" ++ r) "(" ")" = Ok a.
Proof.
  intros a r H. exact (getEnclosedContent_balanced "(" ")" a r ltac:(discriminate) H).
Qed.

Lemma char_free_spaces : forall c n, Ascii.eqb c " " = false -> char_free c (spaces n) = true.
Proof.
  intros c n H. induction n as [|n IH]; [reflexivity |].
  simpl spaces. rewrite char_free_cons, H, IH. reflexivity.
Qed.

Lemma all_in_spaces : forall n, all_in " " (spaces n) = true.
Proof. induction n as [|n IH]; [reflexivity | exact IH]. Qed.








(** ** The exceptions [extractParamName] may raise *)

Lemma raisesOnly_ok : forall A P (a : A), raisesOnly P (Ok a).
Proof. intros A P a e H. discriminate. Qed.

Lemma raisesOnly_raise : forall A P e, P e -> raisesOnly P (@Raise A e).
Proof. intros A P e He e' H. injection H as <-. exact He. Qed.

Lemma raisesOnly_bind : forall A B P (m : res A) (f : A -> res B),
  raisesOnly P m -> (forall a, raisesOnly P (f a)) -> raisesOnly P (bind m f).
Proof.
  intros A B P m f Hm Hf e H. destruct m as [a | e']; simpl in H;
    [exact (Hf a e H) | injection H as <-; exact (Hm e' eq_refl)].
Qed.

Lemma raisesOnly_getitem : forall A P (l : list A) i, P IndexError -> raisesOnly P (py_getitem l i).
Proof.
  intros A P l i H. unfold py_getitem. destruct (nth_error l i);
    [apply raisesOnly_ok | now apply raisesOnly_raise].
Qed.

Lemma raisesOnly_last : forall A P (l : list A), P IndexError -> raisesOnly P (py_last l).
Proof.
  intros A P l H. unfold py_last. destruct (rev l);
    [now apply raisesOnly_raise | apply raisesOnly_ok].
Qed.

Ltac raises_step :=
  match goal with
  | |- raisesOnly _ (bind _ _) => apply raisesOnly_bind; [| intro; cbv beta]
  | |- raisesOnly _ (Ok _) => apply raisesOnly_ok
  | |- raisesOnly _ (Raise _) => apply raisesOnly_raise
  | |- raisesOnly _ (py_getitem _ _) => apply raisesOnly_getitem
  | |- raisesOnly _ (py_last _) => apply raisesOnly_last
  | |- raisesOnly _ (if ?b then _ else _) => destruct b
  | |- raisesOnly _ (match ?x with _ => _ end) => destruct x
  end.

Lemma raisesOnly_loop : forall P, (forall o c s, P (enclosedError o c s)) ->
  forall fuel s o c result rest, raisesOnly P (enclosedLoop fuel s o c result rest).
Proof.
  intros P HP. induction fuel as [| fuel IH]; intros; cbn [enclosedLoop];
    repeat (raises_step || apply IH); apply HP.
Qed.

Lemma raisesOnly_enclosed : forall P, (forall o c s, P (enclosedError o c s)) ->
  forall s o c, raisesOnly P (getEnclosedContent s o c).
Proof.
  intros P HP s o c. unfold getEnclosedContent.
  repeat raises_step. now apply raisesOnly_loop.
Qed.

Ltac raises_tac :=
  cbv zeta;
  repeat (raises_step || apply raisesOnly_enclosed).

(** [extractParamName] raises [IndexError] or an [IOError] *)
Lemma extract_raises : forall line,
  raisesOnly (fun e => e = IndexError \/ exists m, e = IOError m) (extractParamName line).
Proof.
  intros line. unfold extractParamName. raises_tac;
    first [now left | right; eexists; reflexivity | intros; right; eexists; reflexivity].
Qed.

Lemma extract_uncaught : forall line e, extractParamName line = Raise e -> uncaught e ->
  e = IndexError.
Proof.
  intros line e H Hu. destruct (extract_raises line e H) as [He | [m ->]]; [exact He |].
  exfalso. exact (Hu m eq_refl).
Qed.

(** ** Propagation through the scan *)

Lemma scan_raises : forall lines idx e, scanLines idx lines = Raise e -> e = IndexError.
Proof.
  induction lines as [| l ls IH]; intros idx e H; [discriminate |].
  cbn [scanLines] in H.
  destruct (extractParamName l) as [p | e'] eqn:E.
  - destruct (scanLines (S idx) ls) as [[ps es] | e''] eqn:E2; cbn [bind] in H;
      [discriminate |].
    injection H as <-. exact (IH _ _ E2).
  - destruct e';
      try (injection H as <-; apply (extract_uncaught l _ E); intros m'; discriminate).
    destruct (scanLines (S idx) ls) as [[ps es] | e''] eqn:E2; cbn [bind] in H;
      [discriminate |].
    injection H as <-. exact (IH _ _ E2).
Qed.

(** a line raising [IndexError] aborts the scan of its file *)
Lemma scan_aborts : forall ls1 line ls2 idx, extractParamName line = Raise IndexError ->
  scanLines idx (ls1 ++ line :: ls2) = Raise IndexError.
Proof.
  induction ls1 as [| l ls1 IH]; intros line ls2 idx H; cbn [app scanLines].
  - rewrite H. reflexivity.
  - rewrite (IH line ls2 (S idx) H).
    destruct (extractParamName l) as [p | e] eqn:E; cbn [bind]; [reflexivity |].
    destruct e; try reflexivity;
      match goal with
      | E : _ = Raise ?e |- _ =>
          assert (Hi : e = IndexError)
            by (apply (extract_uncaught l _ E); intros m; discriminate);
          discriminate Hi
      end.
Qed.

(** and the walk over all files *)
Lemma collect_aborts : forall files1 file lines files2, isScanned file = true ->
  getParamsFromFile lines = Raise IndexError ->
  collectParameters (files1 ++ (file, lines) :: files2) = Raise IndexError.
Proof.
  induction files1 as [| [f ls] files1 IH]; intros file lines files2 Hs Hl;
    cbn [app collectParameters].
  - rewrite Hs, Hl. reflexivity.
  - rewrite IH by assumption. destruct (isScanned f); [| reflexivity].
    destruct (getParamsFromFile ls) as [r | e] eqn:E; cbn [bind]; [reflexivity |].
    unfold getParamsFromFile in E. rewrite (scan_raises _ _ _ E). reflexivity.
Qed.

Lemma strip_spaces : forall n, strip " " (spaces n) = "".
Proof. intros n. unfold strip. rewrite rstrip_all by apply all_in_spaces. reflexivity. Qed.

Lemma balanced_spaces : forall n, balanced "(" ")" (spaces n) = true.
Proof. unfold balanced. induction n as [| n IH]; [reflexivity | simpl; exact IH]. Qed.

(** a call whose argument list is empty or blank *)
Lemma extract_empty_call : forall pre group T n r w,
  contains "getParam" pre = false ->
  contains "getParam" (callExpr T (spaces n) r ++ ";" ++ w) = false ->
  balanced "<" ">" T = true ->
  char_free ";" (callExpr T (spaces n) r) = true ->
  extractParamName (pre ++ accessor group ++ callExpr T (spaces n) r ++ ";" ++ w)
  = Raise IndexError.
Proof.
  intros pre group T n r w Hpre Htail HT Hsc.
  unfold extractParamName.
  destruct group as [g |]; cbn [accessor].
  - rewrite (contains_call "getParamFromGroup").
    rewrite (split_marker "g" "etParamFromGroup")
      by (reflexivity || exact (contains_mono _ _ _ getParam_prefix_group Hpre)
          || exact (contains_mono _ _ _ getParam_prefix_group Htail)).
    cbn [bind py_getitem nth_error].
    rewrite count_no_occurrence by (discriminate || exact Htail).
    cbn [Nat.ltb Nat.leb].
    rewrite strip_cut by exact Hsc. cbn [bind].
    rewrite enclosed_type by exact HT. cbn [bind].
    rewrite partition_type.
    rewrite enclosed_args by apply balanced_spaces. cbn [bind].
    rewrite (partition_char_absent "," (spaces n)) by (apply char_free_spaces; reflexivity).
    reflexivity.
  - rewrite no_group_call by assumption.
    rewrite (contains_call "getParam").
    rewrite (split_marker "g" "etParam") by (reflexivity || assumption).
    cbn [bind py_getitem nth_error].
    rewrite count_no_occurrence by (discriminate || exact Htail).
    cbn [Nat.ltb Nat.leb].
    rewrite strip_cut by exact Hsc. cbn [bind].
    rewrite enclosed_type by exact HT. cbn [bind].
    rewrite partition_type.
    rewrite enclosed_args by apply balanced_spaces. cbn [bind].
    rewrite (partition_char_absent "," (spaces n)) by (apply char_free_spaces; reflexivity).
    rewrite strip_spaces. reflexivity.
Qed.

(** ** The pieces of [split] *)

Lemma partition_free : forall s k, k <> "" ->
  let '(a, m, b) := partition s k in
  contains k a = false /\ (m = "" -> contains k s = false).
Proof.
  intros s k Hk. induction s as [| c s IH].
  - destruct k; [congruence |]. split; reflexivity.
  - cbn [partition]. destruct (prefix k (String c s)) eqn:E.
    + split; [destruct k; [congruence | reflexivity] | intros Hm; exfalso; exact (Hk Hm)].
    + pose proof (partition_cases s k Hk) as Hc.
      destruct (partition s k) as [[a m] b]. destruct IH as [IH1 IH2]. split.
      * rewrite contains_cons, IH1, orb_false_r.
        destruct Hc as [[_ [-> _]] | [_ ->]]; [exact E |].
        destruct (prefix k (String c a)) eqn:E2; [| reflexivity].
        apply (prefix_app_r _ _ (k ++ b)) in E2.
        change (String c a ++ k ++ b) with (String c (a ++ k ++ b)) in E2. congruence.
      * intros Hm. rewrite contains_cons, E, IH2 by exact Hm. reflexivity.
Qed.

(** no piece of [s.split(k)] contains [k] *)
Lemma split_elem_free : forall s k x, k <> "" -> In x (split s k) -> contains k x = false.
Proof.
  intros s k x Hk. remember (String.length s) as n eqn:En. revert s En.
  induction n as [n IH] using lt_wf_ind. intros s En Hin.
  rewrite split_eq in Hin by exact Hk.
  pose proof (partition_free s k Hk) as Hf. pose proof (partition_cases s k Hk) as Hc.
  destruct (partition s k) as [[a m] b]. destruct Hf as [Hf1 Hf2].
  destruct Hc as [[-> [-> ->]] | [-> ->]].
  - destruct Hin as [<- | []]. exact Hf1.
  - destruct k as [| c k']; [congruence |].
    destruct Hin as [<- | Hin]; [exact Hf1 |].
    apply (IH (String.length b)) with (s := b); [| reflexivity | exact Hin].
    rewrite En, !length_app_s. simpl. lia.
Qed.

(** without a [getParamFromGroup<] on the line, the piece of the line
    after the first [getParam] holds no other [getParam], so the check for
    several calls on one line never fires *)
Lemma no_multiple_check : forall line, contains "getParamFromGroup<" line = false ->
  extractParamName line <> Raise multipleError.
Proof.
  intros line Hg E. unfold extractParamName in E. rewrite Hg in E.
  destruct (contains "getParam<" line) eqn:Hp; cbn [bind] in E; [| discriminate].
  unfold py_getitem at 1 in E.
  destruct (nth_error (split line "getParam") 1) as [x |] eqn:Ex; cbn [bind] in E;
    [| discriminate].
  rewrite count_no_occurrence in E
    by (discriminate || exact (split_elem_free line "getParam" x ltac:(discriminate) (nth_error_In _ _ Ex))).
  cbn [Nat.ltb Nat.leb] in E.
  revert E.
  match goal with
  | |- ?t = _ -> False =>
      assert (R : raisesOnly (fun e => e <> multipleError) t)
  end.
  { raises_tac; try discriminate; intros; unfold nameError, enclosedError, multipleError;
      discriminate. }
  intros E. exact (R _ E eq_refl).
Qed.

End ScraperFacts.

(** * The parameter table *)

Module TableFacts.
Import Scraper ScraperFacts.

Local Abbreviation byName := (fun a b : entry => String.leb (eName a) (eName b) = true).

Lemma addParam_wf : forall d p, Forall wellFormed d -> Forall wellFormed (addParam d p).
Proof.
  induction d as [| e d IH]; intros p H; cbn [addParam].
  - constructor; [split; discriminate | constructor].
  - inversion H as [| ? ? He Hd]; subst.
    destruct (String.eqb (eName e) (paramName p)).
    + constructor; [| exact Hd].
      split; cbn; intros Hn; apply app_eq_nil in Hn; destruct Hn as [_ Hn]; discriminate.
    + constructor; [exact He | now apply IH].
Qed.

Lemma build_wf : forall ps, Forall wellFormed (buildParameterDict ps).
Proof.
  unfold buildParameterDict. intros ps.
  assert (G : forall d, Forall wellFormed d -> Forall wellFormed (fold_left addParam ps d)).
  { induction ps as [| p ps IH]; intros d Hd; [exact Hd | apply IH, addParam_wf, Hd]. }
  apply G. constructor.
Qed.

Lemma insert_wf : forall e l, wellFormed e -> Forall wellFormed l ->
  Forall wellFormed (insertSorted e l).
Proof.
  intros e l He. induction l as [| x l IH]; intros Hl; cbn [insertSorted].
  - constructor; [exact He | constructor].
  - inversion Hl as [| ? ? Hx Hl']; subst.
    destruct (String.leb (eName e) (eName x)).
    + constructor; [exact He | exact Hl].
    + constructor; [exact Hx | now apply IH].
Qed.

Lemma sorted_wf : forall ps, Forall wellFormed (sortedParameterDict ps).
Proof.
  intros ps. unfold sortedParameterDict. generalize (build_wf ps).
  induction (buildParameterDict ps) as [| e l IH]; intros H; [constructor |].
  inversion H as [| ? ? He Hl]; subst. cbn [fold_right]. apply insert_wf; auto.
Qed.

Lemma insert_sorted : forall e l, Sorted byName l -> Sorted byName (insertSorted e l).
Proof.
  intros e l H. induction H as [| x l Hl IH Hhd]; cbn [insertSorted].
  - repeat constructor.
  - destruct (String.leb (eName e) (eName x)) eqn:E.
    + constructor; [constructor; assumption | constructor; exact E].
    + assert (Hxe : String.leb (eName x) (eName e) = true)
        by (destruct (String.leb_total (eName e) (eName x)); congruence).
      constructor; [exact IH |].
      destruct l as [| y l]; cbn [insertSorted].
      * constructor. exact Hxe.
      * destruct (String.leb (eName e) (eName y)); constructor; [exact Hxe |].
        inversion Hhd; assumption.
Qed.

(** [sorted(parameterDict.items())] is ordered by name *)
Lemma sorted_dict : forall ps, Sorted byName (sortedParameterDict ps).
Proof.
  intros ps. unfold sortedParameterDict.
  induction (buildParameterDict ps) as [| e l IH]; cbn [fold_right];
    [constructor | now apply insert_sorted].
Qed.

Lemma getitem_hd : forall A (l : list A) d, l <> [] -> py_getitem l 0 = Ok (hd d l).
Proof. intros A [| x l] d H; [congruence | reflexivity]. Qed.

(** one round of the loop, with [previousGroupEntry] the [groupEntry] of the
    entry before *)
Lemma tableStep_row : forall prev e, wellFormed e ->
  tableStep (option_map groupLabel prev) e
  = Ok (Some (groupLabel e), isGrouped e, renderRow prev e).
Proof.
  intros prev e [Ht Hd]. unfold tableStep. cbv zeta.
  change (negb (Nat.eqb (count (eName e) ".") 0)) with (isGrouped e).
  unfold renderRow, runLabel, shortName, firstType, firstDefault.
  assert (Hg : groupLabel e = if isGrouped e then hd "" (split (eName e) ".") else "-")
    by reflexivity.
  destruct (isGrouped e) eqn:G.
  - rewrite (getitem_hd _ _ "") by apply split_not_nil. cbn [bind].
    rewrite (getitem_hd _ _ "") by exact Ht. cbn [bind].
    rewrite (getitem_hd _ _ None) by exact Hd. cbn [bind].
    rewrite <- Hg.
    destruct prev as [p |]; cbn [option_map sameGroup]; [| reflexivity].
    destruct (String.eqb_spec (groupLabel e) (groupLabel p)) as [Eq | Ne]; cbn; [| reflexivity].
    rewrite Eq. reflexivity.
  - cbn [bind].
    rewrite (getitem_hd _ _ "") by exact Ht. cbn [bind].
    rewrite (getitem_hd _ _ None) by exact Hd. cbn [bind].
    rewrite <- Hg.
    destruct prev as [p |]; cbn [option_map sameGroup]; [| reflexivity].
    destruct (String.eqb_spec (groupLabel e) (groupLabel p)) as [Eq | Ne]; cbn; [| reflexivity].
    rewrite Eq. reflexivity.
Qed.

Lemma tableLoop_rows : forall es prev wg wog, Forall wellFormed es ->
  tableLoop (option_map groupLabel prev) es wg wog =
  Ok ((wg ++ renderRows (filter (fun pe => isGrouped (snd pe)) (withPrev prev es)))%list,
      (wog ++ renderRows (filter (fun pe => negb (isGrouped (snd pe))) (withPrev prev es)))%list).
Proof.
  induction es as [| e es IH]; intros prev wg wog H.
  - cbn. now rewrite !app_nil_r.
  - inversion H as [| ? ? He Hes]; subst.
    cbn [tableLoop withPrev filter]. rewrite tableStep_row by exact He. cbn [bind snd].
    change (Some (groupLabel e)) with (option_map groupLabel (Some e)).
    destruct (isGrouped e); cbn [negb];
      rewrite IH by exact Hes; cbn [renderRows map]; f_equal; f_equal;
      rewrite <- app_assoc; reflexivity.
Qed.

(** a row whose default value is empty reads back an empty default *)
Lemma defaultField_empty : forall g n t, defaultField (tableRow g n t "") = "".
Proof.
  intros g n t. unfold defaultField, tableRow.
  replace (" * | " ++ g ++ " | " ++ n ++ " | " ++ t ++ " | " ++ "" ++ " | TODO: explanation |")
    with ((" * | " ++ g ++ " | " ++ n ++ " | " ++ t ++ " ")
          ++ String "|" ("  " ++ String "|" (" TODO: explanation " ++ String "|" "")))
    by (rewrite !app_assoc_s; reflexivity).
  rewrite !split_app_char. rewrite !rev_app_distr. reflexivity.
Qed.

End TableFacts.

(** * The file system *)

Module FSFacts.

Lemma read_write_same : forall fs p c, FS.read (FS.write fs p c) p = Some c.
Proof.
  induction fs as [| [p' c'] fs IH]; intros p c; cbn [FS.write FS.read].
  - now rewrite String.eqb_refl.
  - destruct (String.eqb p' p) eqn:E; cbn [FS.read]; rewrite E; [reflexivity | apply IH].
Qed.

Lemma read_write_other : forall fs p c q, p <> q -> FS.read (FS.write fs p c) q = FS.read fs q.
Proof.
  induction fs as [| [p' c'] fs IH]; intros p c q Hpq; cbn [FS.write FS.read].
  - apply String.eqb_neq in Hpq. now rewrite Hpq.
  - destruct (String.eqb_spec p' p) as [-> | Hne]; cbn [FS.read].
    + apply String.eqb_neq in Hpq. now rewrite Hpq.
    + destruct (String.eqb p' q); [reflexivity | now apply IH].
Qed.

Lemma exists_write_other : forall fs p c q, p <> q ->
  FS.exists_ (FS.write fs p c) q = FS.exists_ fs q.
Proof. intros. unfold FS.exists_. now rewrite read_write_other. Qed.

End FSFacts.

(** * The pipeline generator *)

Module PipelineFacts.
Import Pipeline FSFacts.

(** with the template missing, [substituteAndWrite] stops before writing *)
Lemma substitute_missing : forall a m fs, FS.exists_ fs (template a) = false ->
  substituteAndWrite a m fs = (fs, Raise (templateMissing (template a))).
Proof. intros a m fs H. unfold substituteAndWrite. now rewrite H. Qed.

(** once the indentation is an [int], the run truncates [outfile] (line 41)
    and, with the template missing, fails without writing anything else *)
Lemma pipeline_missing_template : forall w a n,
  indentation a = IndentInt n -> outfile a <> template a ->
  FS.exists_ (files w) (template a) = false ->
  exists e, pipelineMain w a = (FS.write (files w) (outfile a) "", Raise e) /\
            (testconfig a = None -> e = templateMissing (template a)).
Proof.
  intros w a n Hi Hne Hex. unfold pipelineMain. rewrite Hi. cbn [commandIndentation].
  assert (Hex1 : FS.exists_ (FS.write (files w) (outfile a) "") (template a) = false)
    by (rewrite exists_write_other; assumption).
  destruct (testconfig a) as [p |].
  - destruct (is_truthy p).
    + destruct (FS.read (FS.write (files w) (outfile a) "") p) as [c |].
      * destruct (json_load w c) as [cfg | e]; cbn [bind].
        -- destruct (scriptCommands (str_repeat n " ") (Some cfg)) as [b t].
           rewrite substitute_missing by exact Hex1.
           eexists; split; [reflexivity | discriminate].
        -- eexists; split; [reflexivity | discriminate].
      * eexists; split; [reflexivity | discriminate].
    + destruct (scriptCommands (str_repeat n " ") None) as [b t].
      rewrite substitute_missing by exact Hex1.
      eexists; split; [reflexivity | discriminate].
  - destruct (scriptCommands (str_repeat n " ") None) as [b t].
    rewrite substitute_missing by exact Hex1.
    eexists; split; [reflexivity | intros _; reflexivity].
Qed.

End PipelineFacts.

(** * The properties of the scripts *)

Module Claims.
Import Scraper ScraperFacts TableFacts FSFacts PipelineFacts.




(** C2: for a non-empty selection, the build commands hold the line adding
    the aggregate target of all build targets, space-joined in order, and
    the test commands hold the [dune-ctest] call filtering on all test
    names, space-joined in order. *)
Theorem selection_commands : forall ind config, config <> [] ->
  In (Pipeline.aggregateTargetLine ind (map snd config))
     (fst (Pipeline.scriptCommands ind (Some config))) /\
  In ("dune-ctest -j4 --output-on-failure -R " ++ join " " (map fst config))
     (snd (Pipeline.scriptCommands ind (Some config))).
Proof.
  intros ind [| [t x] cfg] H; [congruence |].
  cbn [Pipeline.scriptCommands map fst snd].
  split; cbn [In]; repeat first [left; reflexivity | right].
Qed.

(** C2: the selection of the specification *)
Lemma selection_commands_witness :
  join " " (map snd [("T1", "X"); ("T2", "Y")]) = "X Y" /\
  join " " (map fst [("T1", "X"); ("T2", "Y")]) = "T1 T2" /\
  In (Pipeline.aggregateTargetLine "    " (map snd [("T1", "X"); ("T2", "Y")]))
     (fst (Pipeline.scriptCommands "    " (Some [("T1", "X"); ("T2", "Y")]))) /\
  In ("dune-ctest -j4 --output-on-failure -R " ++ join " " (map fst [("T1", "X"); ("T2", "Y")]))
     (snd (Pipeline.scriptCommands "    " (Some [("T1", "X"); ("T2", "Y")]))).
Proof.
  split; [reflexivity |]. split; [reflexivity |].
  apply (selection_commands "    " [("T1", "X"); ("T2", "Y")]). discriminate.
Defined.

(** C3: for an empty selection, the build commands only configure and echo
    that nothing is built (no [make]), and the only test call is
    [dune-ctest -R NOOP]. *)
Theorem empty_selection_commands : forall ind,
  Pipeline.scriptCommands ind (Some []) =
    ([Pipeline.duneConfigCommand; "echo " ++ dq ++ "No tests to be built." ++ dq],
     ["echo " ++ dq ++ "No tests to be run, make empty report." ++ dq; "cd build-cmake";
      "dune-ctest -R NOOP"]) /\
  filter (fun c => prefix "dune-ctest" c) (snd (Pipeline.scriptCommands ind (Some [])))
    = ["dune-ctest -R NOOP"] /\
  forallb (fun c => negb (contains "make" c)) (fst (Pipeline.scriptCommands ind (Some [])))
    = true.
Proof. intros ind. split; [reflexivity |]. split; reflexivity. Qed.

(** C4: on a line without [getParamFromGroup<], the check for several
    [getParam] calls never fires: the count runs on the piece after the
    first [getParam] only. *)
Theorem no_multiple_check_without_group : forall line,
  contains "getParamFromGroup<" line = false ->
  extractParamName line <> Raise multipleError.
Proof. exact no_multiple_check. Qed.

(** C4: the line with two calls of the specification has no group *)
Lemma no_multiple_check_without_group_witness :
  contains "getParamFromGroup<" ("getParam<int>(" ++ dq ++ "A" ++ dq ++ "); getParam<int>("
                                 ++ dq ++ "B" ++ dq ++ ");") = false /\
  extractParamName ("getParam<int>(" ++ dq ++ "A" ++ dq ++ "); getParam<int>(" ++ dq ++ "B"
                    ++ dq ++ ");") <> Raise multipleError.
Proof.
  split; [reflexivity |].
  apply no_multiple_check_without_group. reflexivity.
Defined.

(** C4: a line with two [getParam] calls yields the first call's parameter
    and no recorded error *)
Lemma two_calls_one_line :
  extractParamName ("getParam<int>(" ++ dq ++ "A" ++ dq ++ "); getParam<int>(" ++ dq ++ "B"
                    ++ dq ++ ");")
    = Ok (Some (mkParam "int" "A" None)) /\
  getParamsFromFile ["getParam<int>(" ++ dq ++ "A" ++ dq ++ "); getParam<int>(" ++ dq ++ "B"
                     ++ dq ++ ");"]
    = Ok ([mkParam "int" "A" None], []).
Proof. split; vm_compute; reflexivity. Qed.

(** C5 (as corrected): the entries are sorted by name; the rows of the
    ungrouped entries come first, then those of the grouped ones, each in
    that order; every grouped row shows its group, marked with [\b] exactly
    when the entry before it in the sorted list has another group (or it is
    the first entry). *)
Theorem table_layout : forall ps,
  Sorted (fun a b : entry => String.leb (eName a) (eName b) = true) (sortedParameterDict ps) /\
  tableEntries ps =
  Ok (renderRows (filter (fun pe => negb (isGrouped (snd pe)))
                         (withPrev None (sortedParameterDict ps)))
      ++ renderRows (filter (fun pe => isGrouped (snd pe))
                            (withPrev None (sortedParameterDict ps))))%list.
Proof.
  intros ps. split; [apply sorted_dict |].
  unfold tableEntries. change (@None string) with (option_map groupLabel (@None entry)).
  rewrite tableLoop_rows by apply sorted_wf. reflexivity.
Qed.

(** C5: [A.X] and [A.Y] both show the group [A] *)
Lemma group_label_repeated :
  tableEntries [mkParam "int" "A.X" None; mkParam "int" "A.Y" None] =
  Ok [" * | \b A | X | int |  | TODO: explanation |";
      " * | A | Y | int |  | TODO: explanation |"].
Proof. vm_compute. reflexivity. Qed.

(** C6 (as corrected): with neither [--build] nor [--test], or with [--all]
    and a non-empty [--config], the runner exits with a message and status 1
    before any event, in particular before any process runs. *)
Theorem invalid_flags_exit : forall w a,
  (Runner.build a = false /\ Runner.test a = false) \/
  (Runner.all a = true /\ exists c, Runner.config a = Some c /\ c <> "") ->
  exists msg, Runner.runMain w a = ([], Raise (SystemExit msg)) /\
              Runner.exitStatus (snd (Runner.runMain w a)) = 1.
Proof.
  intros w a H. unfold Runner.runMain, Runner.main.
  destruct H as [[Hb Ht] | [Ha (c & Hc & Hne)]].
  - rewrite Hb, Ht. eexists; split; reflexivity.
  - rewrite Ha, Hc. destruct c as [| ch c']; [congruence |].
    destruct (Runner.build a), (Runner.test a); eexists; split; reflexivity.
Qed.

(** C6: [--all] together with [--config sel.json] *)
Lemma invalid_flags_exit_witness :
  exists msg,
    Runner.runMain (Runner.mkWorld [] (fun _ => Ok []) (fun _ => 0))
      (Runner.mkArgs true (Some "sel.json") "" true false "-j4" "-j4")
    = ([], Raise (SystemExit msg)) /\
    Runner.exitStatus (snd (Runner.runMain (Runner.mkWorld [] (fun _ => Ok []) (fun _ => 0))
      (Runner.mkArgs true (Some "sel.json") "" true false "-j4" "-j4"))) = 1.
Proof.
  apply invalid_flags_exit. right. split; [reflexivity |].
  exists "sel.json". split; [reflexivity | discriminate].
Defined.

(** C6: [--all --config ""] is not refused: [make] runs *)
Lemma empty_config_runs_make :
  Runner.runMain (Runner.mkWorld [] (fun _ => Ok []) (fun _ => 0))
    (Runner.mkArgs true (Some "") "" true false "-j4" "-j4")
  = ([Runner.Print "Building all tests"; Runner.Run ["make"; "-j4"; "build_tests"]], Ok tt).
Proof. vm_compute. reflexivity. Qed.

(** C7: the scraper never changes the file system and never succeeds:
    [copyfile] is not bound, so the backup step raises [NameError]. *)
Theorem scraper_never_writes : forall rootDir files fs,
  fst (scraperMain rootDir files fs) = fs /\ snd (scraperMain rootDir files fs) <> Ok tt.
Proof.
  intros rootDir files fs. unfold scraperMain.
  assert (Hb : isBound "copyfile" = false) by reflexivity.
  destruct (collectParameters files) as [ps | e]; [destruct (tableEntries ps) as [rows | e] |];
    [unfold writeParameterList; rewrite Hb | |]; split; (reflexivity || discriminate).
Qed.

(** C7: a run over no files with an existing output file *)
Lemma scraper_name_error :
  scraperMain "dumux" [] [("dumux/../doc/doxygen/extradoc/parameterlist.txt", "old")]
  = ([("dumux/../doc/doxygen/extradoc/parameterlist.txt", "old")],
     Raise (NameError "copyfile")).
Proof. vm_compute. reflexivity. Qed.

(** C8: for an entry of [sortedParameterDict] whose first default is
    [None], the row has an empty default column, and reading the row back
    gives an empty default field. *)
Theorem no_default_empty_field : forall ps prev e,
  In e (sortedParameterDict ps) -> hd None (eDefaults e) = None ->
  tableStep (option_map groupLabel prev) e =
    Ok (Some (groupLabel e), isGrouped e,
        tableRow (runLabel prev e) (shortName e) (firstType e) "") /\
  defaultField (tableRow (runLabel prev e) (shortName e) (firstType e) "") = "".
Proof.
  intros ps prev e Hin Hd. split; [| apply defaultField_empty].
  rewrite tableStep_row by exact (proj1 (Forall_forall _ _) (sorted_wf ps) e Hin).
  unfold renderRow, firstDefault. rewrite Hd. reflexivity.
Qed.

(** C8: the parameter [Grid.Cells] read without a default *)
Lemma no_default_empty_field_witness :
  In (mkEntry "Grid.Cells" ["int"] [None]) (sortedParameterDict [mkParam "int" "Grid.Cells" None]) /\
  tableStep (option_map groupLabel None) (mkEntry "Grid.Cells" ["int"] [None]) =
    Ok (Some (groupLabel (mkEntry "Grid.Cells" ["int"] [None])),
        isGrouped (mkEntry "Grid.Cells" ["int"] [None]),
        tableRow (runLabel None (mkEntry "Grid.Cells" ["int"] [None]))
                 (shortName (mkEntry "Grid.Cells" ["int"] [None]))
                 (firstType (mkEntry "Grid.Cells" ["int"] [None])) "") /\
  defaultField (tableRow (runLabel None (mkEntry "Grid.Cells" ["int"] [None]))
                         (shortName (mkEntry "Grid.Cells" ["int"] [None]))
                         (firstType (mkEntry "Grid.Cells" ["int"] [None])) "") = "".
Proof.
  split; [vm_compute; left; reflexivity |].
  apply (no_default_empty_field [mkParam "int" "Grid.Cells" None] None
           (mkEntry "Grid.Cells" ["int"] [None])); [vm_compute; left; reflexivity | reflexivity].
Defined.

(** C9 (as corrected): when the indentation is an integer, the
    output file differs from the template and the template is missing, the
    run fails, leaves the output file empty and every other file as it was;
    without [--testconfig] the failure is the missing-template exit. *)
Theorem outfile_truncated_on_missing_template : forall w a n,
  Pipeline.indentation a = Pipeline.IndentInt n ->
  Pipeline.outfile a <> Pipeline.template a ->
  FS.exists_ (Pipeline.files w) (Pipeline.template a) = false ->
  FS.read (fst (Pipeline.pipelineMain w a)) (Pipeline.outfile a) = Some "" /\
  (forall q, q <> Pipeline.outfile a ->
     FS.read (fst (Pipeline.pipelineMain w a)) q = FS.read (Pipeline.files w) q) /\
  (exists e, snd (Pipeline.pipelineMain w a) = Raise e) /\
  (Pipeline.testconfig a = None ->
     snd (Pipeline.pipelineMain w a) = Raise (Pipeline.templateMissing (Pipeline.template a))).
Proof.
  intros w a n Hi Hne Hex.
  destruct (pipeline_missing_template w a n Hi Hne Hex) as (e & E & Ht).
  rewrite E. cbn [fst snd]. split; [apply read_write_same |]. split.
  - intros q Hq. apply read_write_other. intros Heq. apply Hq. symmetry. exact Heq.
  - split; [exists e; reflexivity |]. intros Hn. rewrite (Ht Hn). reflexivity.
Qed.

(** C9: an existing [out.yml] and a missing template [tpl] *)
Lemma outfile_truncated_on_missing_template_witness :
  FS.read (fst (Pipeline.pipelineMain (Pipeline.mkWorld [("out.yml", "old")] (fun _ => Ok []))
                  (Pipeline.mkArgs "out.yml" None "tpl" (Pipeline.IndentInt 4))))
          "out.yml" = Some "" /\
  (forall q, q <> "out.yml" ->
     FS.read (fst (Pipeline.pipelineMain (Pipeline.mkWorld [("out.yml", "old")] (fun _ => Ok []))
                     (Pipeline.mkArgs "out.yml" None "tpl" (Pipeline.IndentInt 4)))) q
     = FS.read [("out.yml", "old")] q) /\
  (exists e, snd (Pipeline.pipelineMain (Pipeline.mkWorld [("out.yml", "old")] (fun _ => Ok []))
                    (Pipeline.mkArgs "out.yml" None "tpl" (Pipeline.IndentInt 4))) = Raise e) /\
  (@None string = None ->
     snd (Pipeline.pipelineMain (Pipeline.mkWorld [("out.yml", "old")] (fun _ => Ok []))
            (Pipeline.mkArgs "out.yml" None "tpl" (Pipeline.IndentInt 4)))
     = Raise (Pipeline.templateMissing "tpl")).
Proof.
  apply (outfile_truncated_on_missing_template
           (Pipeline.mkWorld [("out.yml", "old")] (fun _ => Ok []))
           (Pipeline.mkArgs "out.yml" None "tpl" (Pipeline.IndentInt 4)) 4);
    [reflexivity | discriminate | reflexivity].
Defined.

(** C9: with the template [tpl], missing, as output file and no
    [--testconfig], line 41 creates the template and the run succeeds *)
Lemma template_is_outfile :
  Pipeline.pipelineMain (Pipeline.mkWorld [("x", "old")] (fun _ => Ok []))
    (Pipeline.mkArgs "tpl" None "tpl" (Pipeline.IndentInt 4))
  = ([("x", "old"); ("tpl", "")], Ok tt).
Proof. vm_compute. reflexivity. Qed.

(** C10: a call with an empty (or blank) argument list makes
    [extractParamName] raise [IndexError], which [getParamsFromFile] does not
    catch: the scan of the file, and the whole script, stop with it, the
    file system untouched. *)
Theorem empty_args_abort_scan : forall pre group T n r w,
  contains "getParam" pre = false ->
  contains "getParam" (callExpr T (spaces n) r ++ ";" ++ w) = false ->
  balanced "<" ">" T = true ->
  char_free ";" (callExpr T (spaces n) r) = true ->
  extractParamName (pre ++ accessor group ++ callExpr T (spaces n) r ++ ";" ++ w)
    = Raise IndexError /\
  (forall idx ls1 ls2,
     scanLines idx (List.app ls1 ((pre ++ accessor group ++ callExpr T (spaces n) r ++ ";" ++ w) :: ls2))
     = Raise IndexError) /\
  (forall rootDir files1 file ls1 ls2 files2 fs, isScanned file = true ->
     scraperMain rootDir
       (List.app files1
          ((file, List.app ls1 ((pre ++ accessor group ++ callExpr T (spaces n) r ++ ";" ++ w)
                                :: ls2)) :: files2)) fs
     = (fs, Raise IndexError)).
Proof.
  intros pre group T n r w Hpre Htail HT Hsc.
  pose proof (extract_empty_call pre group T n r w Hpre Htail HT Hsc) as E.
  split; [exact E |]. split.
  - intros idx ls1 ls2. now apply scan_aborts.
  - intros rootDir files1 file ls1 ls2 files2 fs Hs. unfold scraperMain.
    rewrite collect_aborts; [reflexivity | exact Hs |].
    unfold getParamsFromFile. now apply scan_aborts.
Qed.

(** C10: the line [getParam<int>();] *)
Lemma empty_args_abort_scan_witness :
  "" ++ accessor None ++ callExpr "int" (spaces 0) "" ++ ";" ++ "" = "getParam<int>();" /\
  extractParamName ("" ++ accessor None ++ callExpr "int" (spaces 0) "" ++ ";" ++ "")
    = Raise IndexError.
Proof.
  split; [reflexivity |].
  apply (empty_args_abort_scan "" None "int" 0 "" ""); reflexivity.
Defined.

End Claims.

(** * Further facts about the scripts *)

Module ExtraFacts.
Import Scraper ScraperFacts TableFacts FSFacts PipelineFacts.

(** ** [rpartition] and [os.path.splitext] *)

Lemma rpartition_absent : forall c y, char_free c y = true ->
  rpartition y (String c "") = ("", "", y).
Proof.
  intros c. induction y as [|d y IH]; intros H; [reflexivity |].
  rewrite char_free_cons in H. apply andb_true_iff in H as [H1 H2].
  cbn [rpartition]. rewrite IH by exact H2.
  rewrite prefix_char. apply negb_true_iff in H1. rewrite H1. reflexivity.
Qed.

Lemma rpartition_char : forall c x y, char_free c y = true ->
  rpartition (x ++ String c y) (String c "") = (x, String c "", y).
Proof.
  intros c x y H. induction x as [|a x IH].
  - cbn [append rpartition]. rewrite rpartition_absent by exact H.
    rewrite prefix_char, Ascii.eqb_refl. reflexivity.
  - cbn [append rpartition]. rewrite IH. reflexivity.
Qed.

Lemma rpartition_found : forall s k a m b, rpartition s k = (a, m, b) -> m <> "" ->
  m = k /\ s = a ++ k ++ b.
Proof.
  induction s as [|c s IH]; intros k a m b H Hm.
  - cbn in H. injection H as <- <- <-. congruence.
  - cbn [rpartition] in H. destruct (rpartition s k) as [[a' m'] b'] eqn:E.
    destruct m' as [|d m'].
    + destruct (prefix k (String c s)) eqn:P.
      * injection H as <- <- <-. split; [reflexivity |]. apply prefix_split. exact P.
      * injection H as <- <- <-. congruence.
    + injection H as <- <- <-.
      destruct (IH k a' (String d m') b' E ltac:(discriminate)) as [Hk Hs].
      split; [exact Hk |]. rewrite Hs. reflexivity.
Qed.

(** ** [getEnclosedContent] *)

Lemma enclosed_skip_prefix : forall o c pre t, char_free o pre = true ->
  getEnclosedContent (pre ++ String o t) (String o "") (String c "") =
  getEnclosedContent (String o t) (String o "") (String c "").
Proof.
  intros o c pre t H. unfold getEnclosedContent.
  rewrite partition_char by exact H.
  rewrite (partition_prefix (String o "") (String o t))
    by (rewrite prefix_char; apply Ascii.eqb_refl).
  reflexivity.
Qed.

Lemma enclosedLoop_raises : forall fuel s o c result rest e,
  enclosedLoop fuel s o c result rest = Raise e -> e = enclosedError o c s.
Proof.
  induction fuel as [|fuel IH]; intros s o c result rest e H; cbn [enclosedLoop] in H.
  - destruct (Nat.eqb _ _).
    + destruct (partition result o) as [[? ?] after].
      destruct (rpartition after c) as [[? ?] ?]. discriminate.
    + injection H as <-. reflexivity.
  - destruct (Nat.eqb _ _).
    + destruct (partition result o) as [[? ?] after].
      destruct (rpartition after c) as [[? ?] ?]. discriminate.
    + destruct (partition rest c) as [[a m] b]. destruct m.
      * injection H as <-. reflexivity.
      * exact (IH _ _ _ _ _ _ H).
Qed.

Lemma eqb_neq_char : forall a b : ascii, a <> b -> Ascii.eqb a b = false.
Proof. intros a b H. destruct (Ascii.eqb_spec a b); congruence. Qed.

Lemma eqb_sym_char : forall a b : ascii, Ascii.eqb a b = Ascii.eqb b a.
Proof. intros a b. destruct (Ascii.eqb_spec a b), (Ascii.eqb_spec b a); congruence. Qed.

(** ** [str.split] on one character and [str.join] *)

Lemma split_free : forall c x, char_free c x = true -> split x (String c "") = [x].
Proof.
  intros c x H. apply split_absent; [discriminate |]. now apply partition_char_absent.
Qed.

Lemma join_split : forall c s, join (String c "") (split s (String c "")) = s.
Proof.
  intros c s. remember (String.length s) as n eqn:En. revert s En.
  induction n as [n IH] using lt_wf_ind. intros s En.
  destruct (char_free c s) eqn:F.
  - rewrite split_free by exact F. reflexivity.
  - destruct (first_occurrence c s F) as (a & b & Ha & ->).
    rewrite split_app_char, split_free by exact Ha. cbn [app].
    destruct (split b (String c "")) as [|y ys] eqn:Eb; [now apply split_not_nil in Eb |].
    change (join (String c "") (a :: y :: ys)) with (a ++ String c "" ++ join (String c "") (y :: ys)).
    rewrite <- Eb.
    assert (Hb : String.length b < n) by (rewrite En, length_app_s; simpl; lia).
    rewrite (IH (String.length b) Hb b eq_refl). reflexivity.
Qed.

Lemma split_parts_free : forall c s x, In x (split s (String c "")) -> char_free c x = true.
Proof.
  intros c s x H. pose proof (split_elem_free s (String c "") x ltac:(discriminate) H) as Hx.
  rewrite contains_char in Hx. now apply negb_false_iff in Hx.
Qed.

Lemma split_join : forall c l, l <> [] -> Forall (fun x => char_free c x = true) l ->
  split (join (String c "") l) (String c "") = l.
Proof.
  intros c l. induction l as [|x l IH]; intros Hne Hl; [congruence |].
  inversion Hl as [| ? ? Hx Hl']; subst.
  destruct l as [|y l].
  - apply split_free. exact Hx.
  - change (join (String c "") (x :: y :: l)) with (x ++ String c "" ++ join (String c "") (y :: l)).
    change (x ++ String c "" ++ join (String c "") (y :: l))
      with (x ++ String c (join (String c "") (y :: l))).
    rewrite split_app_char, (split_free c x Hx).
    rewrite IH by (discriminate || exact Hl'). reflexivity.
Qed.

(** ** [parameterDict] and its sorted copy *)

Lemma addParam_names : forall d p,
  map eName (addParam d p) =
  if existsb (fun e => String.eqb (eName e) (paramName p)) d then map eName d
  else (map eName d ++ [paramName p])%list.
Proof.
  induction d as [| e d IH]; intros p; [reflexivity |].
  cbn [addParam existsb]. destruct (String.eqb (eName e) (paramName p)) eqn:E.
  - reflexivity.
  - cbn [map orb]. rewrite IH. destruct (existsb _ d); reflexivity.
Qed.

Lemma addParam_find : forall d p n,
  find (fun e => String.eqb (eName e) n) (addParam d p) =
  if String.eqb n (paramName p) then
    Some (match find (fun e => String.eqb (eName e) n) d with
          | Some e => mkEntry n (eTypes e ++ [paramType p]) (eDefaults e ++ [defaultValue p])
          | None => mkEntry n [paramType p] [defaultValue p]
          end)%list
  else find (fun e => String.eqb (eName e) n) d.
Proof.
  induction d as [| e d IH]; intros p n.
  - cbn [addParam find eName].
    destruct (String.eqb_spec n (paramName p)) as [-> | Hn]; [now rewrite String.eqb_refl |].
    rewrite (proj2 (String.eqb_neq _ _) (not_eq_sym Hn)). reflexivity.
  - cbn [addParam]. destruct (String.eqb_spec (eName e) (paramName p)) as [Ep | Ep].
    + cbn [find eName].
      destruct (String.eqb_spec n (paramName p)) as [-> | Hn].
      * rewrite Ep, String.eqb_refl. reflexivity.
      * rewrite Ep, (proj2 (String.eqb_neq _ _) (not_eq_sym Hn)). reflexivity.
    + cbn [find]. rewrite IH.
      destruct (String.eqb_spec (eName e) n) as [En | En].
      * subst n. rewrite (proj2 (String.eqb_neq _ _) Ep). reflexivity.
      * destruct (String.eqb n (paramName p)); reflexivity.
Qed.

Lemma dict_inv_step : forall d qs p,
  NoDup (map eName d) ->
  (forall n, find (fun e => String.eqb (eName e) n) d =
     match filter (fun q => String.eqb (paramName q) n) qs with
     | [] => None
     | F => Some (mkEntry n (map paramType F) (map defaultValue F))
     end) ->
  NoDup (map eName (addParam d p)) /\
  (forall n, find (fun e => String.eqb (eName e) n) (addParam d p) =
     match filter (fun q => String.eqb (paramName q) n) (qs ++ [p]) with
     | [] => None
     | F => Some (mkEntry n (map paramType F) (map defaultValue F))
     end).
Proof.
  intros d qs p Hd HF. split.
  - rewrite addParam_names. destruct (existsb _ d) eqn:Ex; [exact Hd |].
    apply Permutation_NoDup with (paramName p :: map eName d);
      [apply Permutation_cons_append |].
    constructor; [| exact Hd]. intros Hin. apply in_map_iff in Hin as (e & He & Hin).
    assert (Ht : existsb (fun e => String.eqb (eName e) (paramName p)) d = true)
      by (apply existsb_exists; exists e; split; [exact Hin | apply String.eqb_eq; exact He]).
    congruence.
  - intros n. rewrite addParam_find, filter_app, (HF n). cbn [filter].
    destruct (String.eqb_spec n (paramName p)) as [-> | Hn].
    + rewrite String.eqb_refl.
      destruct (filter _ qs) as [| q F]; cbn [app map]; [reflexivity |].
      rewrite !map_app. reflexivity.
    + rewrite (proj2 (String.eqb_neq _ _) (not_eq_sym Hn)), app_nil_r. reflexivity.
Qed.

Lemma dict_inv_fold : forall ps d qs,
  NoDup (map eName d) ->
  (forall n, find (fun e => String.eqb (eName e) n) d =
     match filter (fun q => String.eqb (paramName q) n) qs with
     | [] => None
     | F => Some (mkEntry n (map paramType F) (map defaultValue F))
     end) ->
  NoDup (map eName (fold_left addParam ps d)) /\
  (forall n, find (fun e => String.eqb (eName e) n) (fold_left addParam ps d) =
     match filter (fun q => String.eqb (paramName q) n) (qs ++ ps) with
     | [] => None
     | F => Some (mkEntry n (map paramType F) (map defaultValue F))
     end).
Proof.
  induction ps as [| p ps IH]; intros d qs Hd HF.
  - rewrite app_nil_r. split; assumption.
  - cbn [fold_left]. destruct (dict_inv_step d qs p Hd HF) as [H1 H2].
    replace (qs ++ p :: ps)%list with ((qs ++ [p]) ++ ps)%list
      by (rewrite <- app_assoc; reflexivity).
    apply IH; assumption.
Qed.

Lemma build_inv : forall ps,
  NoDup (map eName (buildParameterDict ps)) /\
  (forall n, find (fun e => String.eqb (eName e) n) (buildParameterDict ps) =
     match filter (fun q => String.eqb (paramName q) n) ps with
     | [] => None
     | F => Some (mkEntry n (map paramType F) (map defaultValue F))
     end).
Proof.
  intros ps. exact (dict_inv_fold ps [] [] (NoDup_nil _) (fun n => eq_refl)).
Qed.

Lemma find_nodup : forall d e, NoDup (map eName d) -> In e d ->
  find (fun x => String.eqb (eName x) (eName e)) d = Some e.
Proof.
  induction d as [| x d IH]; intros e Hd Hin; [destruct Hin |].
  cbn [map] in Hd. inversion Hd as [| ? ? Hx Hd']; subst. cbn [find].
  destruct Hin as [-> | Hin]; [now rewrite String.eqb_refl |].
  destruct (String.eqb_spec (eName x) (eName e)) as [Ex | Ex]; [| now apply IH].
  exfalso. apply Hx. rewrite Ex. now apply in_map.
Qed.

Lemma insert_perm : forall e l, Permutation (insertSorted e l) (e :: l).
Proof.
  intros e. induction l as [| x l IH]; [reflexivity |].
  cbn [insertSorted]. destruct (String.leb (eName e) (eName x)); [reflexivity |].
  transitivity (x :: e :: l); [now constructor | apply perm_swap].
Qed.

Lemma sorted_perm : forall ps, Permutation (sortedParameterDict ps) (buildParameterDict ps).
Proof.
  intros ps. unfold sortedParameterDict. induction (buildParameterDict ps) as [| e l IH];
    [reflexivity |].
  cbn [fold_right]. rewrite insert_perm. now constructor.
Qed.

Lemma filter_nil_iff : forall n ps,
  filter (fun q => String.eqb (paramName q) n) ps = [] <-> ~ In n (map paramName ps).
Proof.
  intros n ps. split.
  - intros H Hin. apply in_map_iff in Hin as (q & Hq & Hin).
    assert (Hf : In q (filter (fun q => String.eqb (paramName q) n) ps))
      by (apply filter_In; split; [exact Hin | apply String.eqb_eq; exact Hq]).
    rewrite H in Hf. destruct Hf.
  - intros H. destruct (filter _ ps) as [| q F] eqn:E; [reflexivity |].
    exfalso. assert (Hq : In q (q :: F)) by now left. rewrite <- E in Hq.
    apply filter_In in Hq as [Hin Hq]. apply String.eqb_eq in Hq.
    apply H. rewrite <- Hq. now apply in_map.
Qed.

Lemma length_filter_split : forall A (f : A -> bool) l,
  List.length (filter f l) + List.length (filter (fun x => negb (f x)) l) = List.length l.
Proof.
  intros A f. induction l as [| x l IH]; [reflexivity |].
  cbn [filter List.length]. destruct (f x); cbn [negb List.length]; lia.
Qed.

Lemma withPrev_length : forall A (prev : option A) l, List.length (withPrev prev l) = List.length l.
Proof. intros A prev l. revert prev. induction l; intros; cbn; auto. Qed.

(** ** [string.Template.substitute] *)

Import Pipeline.

Lemma subst_acc : forall tpl m s st out,
  substituteGo tpl m st s out = resMap (fun r => out ++ r) (substituteGo tpl m st s "").
Proof.
  intros tpl m s. induction s as [| c s IH]; intros st out.
  - destruct st as [| | acc | n acc]; cbn [substituteGo resMap bind]; try reflexivity.
    + rewrite app_nil_r_s. reflexivity.
    + destruct (lookupMapping m acc); reflexivity.
  - assert (Step : forall st' o1 o2, o1 = out ++ o2 ->
              substituteGo tpl m st' s o1
              = resMap (fun r => out ++ r) (substituteGo tpl m st' s o2)).
    { intros st' o1 o2 ->. rewrite (IH st' (out ++ o2)), (IH st' o2).
      destruct (substituteGo tpl m st' s ""); cbn [resMap bind]; [| reflexivity].
      rewrite app_assoc_s. reflexivity. }
    destruct st as [| | acc | n acc]; cbn [substituteGo].
    + destruct (Ascii.eqb c "$"); apply Step; first [reflexivity | symmetry; apply app_nil_r_s].
    + destruct (Ascii.eqb c "$"); [apply Step; first [reflexivity | symmetry; apply app_nil_r_s] |].
      destruct (Ascii.eqb c "{"); [apply Step; first [reflexivity | symmetry; apply app_nil_r_s] |].
      destruct (isIdStart c); [apply Step; first [reflexivity | symmetry; apply app_nil_r_s] | reflexivity].
    + destruct (isIdChar c); [apply Step; first [reflexivity | symmetry; apply app_nil_r_s] |].
      destruct (lookupMapping m acc) as [v |]; cbn [bind]; [| reflexivity].
      destruct (Ascii.eqb c "$"); apply Step; first [reflexivity | symmetry; apply app_nil_r_s].
    + destruct (Ascii.eqb c "}").
      * destruct acc as [| a acc]; [reflexivity |].
        destruct (lookupMapping m (String a acc)) as [v |]; cbn [bind]; [| reflexivity].
        apply Step; first [reflexivity | symmetry; apply app_nil_r_s].
      * destruct (if is_truthy acc then isIdChar c else isIdStart c);
          [apply Step; first [reflexivity | symmetry; apply app_nil_r_s] | reflexivity].
Qed.

Lemma subst_text : forall tpl m x s out, char_free "$" x = true ->
  substituteGo tpl m TText (x ++ s) out = substituteGo tpl m TText s (out ++ x).
Proof.
  intros tpl m x. induction x as [| c x IH]; intros s out Hx.
  - rewrite app_nil_r_s. reflexivity.
  - rewrite char_free_cons in Hx. apply andb_true_iff in Hx as [Hc Hx].
    apply negb_true_iff in Hc. cbn [append substituteGo].
    rewrite (eqb_sym_char c "$"), Hc, IH by exact Hx. rewrite app_assoc_s. reflexivity.
Qed.

Lemma subst_braced : forall tpl m n k acc s out, is_truthy acc = true ->
  forallb isIdChar (list_ascii_of_string k) = true ->
  substituteGo tpl m (TBraced n acc) (k ++ s) out
  = substituteGo tpl m (TBraced n (acc ++ k)) s out.
Proof.
  intros tpl m n k. induction k as [| c k IH]; intros acc s out Ha Hk.
  - rewrite app_nil_r_s. reflexivity.
  - cbn [list_ascii_of_string forallb] in Hk. apply andb_true_iff in Hk as [Hc Hk].
    cbn [append substituteGo].
    destruct (Ascii.eqb_spec c "}") as [-> | Hne]; [discriminate |].
    rewrite Ha, Hc, IH by (exact Hk || (destruct acc; [discriminate | reflexivity])).
    rewrite app_assoc_s. reflexivity.
Qed.

Lemma subst_named : forall tpl m k acc s out,
  forallb isIdChar (list_ascii_of_string k) = true ->
  substituteGo tpl m (TNamed acc) (k ++ s) out = substituteGo tpl m (TNamed (acc ++ k)) s out.
Proof.
  intros tpl m k. induction k as [| c k IH]; intros acc s out Hk.
  - rewrite app_nil_r_s. reflexivity.
  - cbn [list_ascii_of_string forallb] in Hk. apply andb_true_iff in Hk as [Hc Hk].
    cbn [append substituteGo]. rewrite Hc, IH by exact Hk.
    rewrite app_assoc_s. reflexivity.
Qed.

(** the template only enters the position of an invalid placeholder: any
    other outcome does not depend on it *)
Lemma subst_tpl : forall tpl tpl' m s st out,
  match substituteGo tpl m st s out with
  | Raise (ValueError _) => True
  | r => substituteGo tpl' m st s out = r
  end.
Proof.
  intros tpl tpl' m s. induction s as [| c s IH]; intros st out.
  - destruct st as [| | acc | n acc]; cbn [substituteGo bind invalidAt invalidPlaceholder];
      try exact I; try reflexivity.
    destruct (lookupMapping m acc) as [v | []]; cbn [bind]; first [exact I | reflexivity].
  - destruct st as [| | acc | n acc]; cbn [substituteGo].
    + destruct (Ascii.eqb c "$"); apply IH.
    + destruct (Ascii.eqb c "$"); [apply IH |].
      destruct (Ascii.eqb c "{"); [apply IH |].
      destruct (isIdStart c); [apply IH | exact I].
    + destruct (isIdChar c); [apply IH |].
      destruct (lookupMapping m acc) as [v | []]; cbn [bind]; try first [exact I | reflexivity].
      destruct (Ascii.eqb c "$"); apply IH.
    + destruct (Ascii.eqb c "}").
      * destruct acc as [| a acc]; [exact I |].
        destruct (lookupMapping m (String a acc)) as [v | []]; cbn [bind];
          try first [exact I | reflexivity].
        apply IH.
      * destruct (if is_truthy acc then isIdChar c else isIdStart c); [apply IH | exact I].
Qed.

Lemma subst_tpl_ok : forall tpl tpl' m s st out r,
  substituteGo tpl m st s out = Ok r -> substituteGo tpl' m st s out = Ok r.
Proof.
  intros tpl tpl' m s st out r H. pose proof (subst_tpl tpl tpl' m s st out) as T.
  rewrite H in T. exact T.
Qed.

Lemma lookup_missing : forall m k, ~ In k (map fst m) -> lookupMapping m k = Raise (KeyError k).
Proof.
  induction m as [| [k' v] m IH]; intros k Hk; [reflexivity |]. cbn [lookupMapping].
  destruct (String.eqb_spec k k') as [-> | _]; [exfalso; apply Hk; left; reflexivity |].
  apply IH. intros H. apply Hk. right. exact H.
Qed.

Lemma subst_placeholder_go : forall tpl m x k y,
  char_free "$" x = true -> isIdent k = true ->
  substituteGo tpl m TText (x ++ "${" ++ k ++ "}" ++ y) "" =
  let* v := lookupMapping m k in resMap (fun r => x ++ v ++ r) (substituteGo tpl m TText y "").
Proof.
  intros tpl m x k y Hx Hk.
  rewrite subst_text by exact Hx.
  destruct k as [| c k]; [discriminate |].
  cbn [isIdent] in Hk. apply andb_true_iff in Hk as [Hc Hk].
  change (substituteGo tpl m TText ("${" ++ String c k ++ "}" ++ y) ("" ++ x))
    with (substituteGo tpl m (TBraced (String.length (String "{" (String c (k ++ "}" ++ y)))) "")
            (String c (k ++ "}" ++ y)) x).
  generalize (String.length (String "{" (String c (k ++ "}" ++ y)))) as n. intros n.
  cbn [substituteGo].
  destruct (Ascii.eqb_spec c "}") as [-> | Hne]; [discriminate |].
  cbn [is_truthy]. rewrite Hc.
  rewrite subst_braced by (reflexivity || exact Hk).
  change (substituteGo tpl m (TBraced n (("" ++ String c "") ++ k)) ("}" ++ y) x)
    with (let* v := lookupMapping m (String c k) in substituteGo tpl m TText y (x ++ v)).
  destruct (lookupMapping m (String c k)) as [v |]; cbn [bind]; [| reflexivity].
  rewrite subst_acc. destruct (substituteGo tpl m TText y ""); cbn [resMap bind]; [| reflexivity].
  rewrite app_assoc_s. reflexivity.
Qed.

Lemma subst_named_go : forall tpl m x k c y,
  char_free "$" x = true -> isIdent k = true -> isIdChar c = false -> c <> "$"%char ->
  substituteGo tpl m TText (x ++ "$" ++ k ++ String c y) "" =
  let* v := lookupMapping m k in
  resMap (fun r => x ++ v ++ String c r) (substituteGo tpl m TText y "").
Proof.
  intros tpl m x k c y Hx Hk Hc Hcd.
  rewrite subst_text by exact Hx.
  destruct k as [| d k]; [discriminate |].
  cbn [isIdent] in Hk. apply andb_true_iff in Hk as [Hd Hk].
  change (substituteGo tpl m TText ("$" ++ String d k ++ String c y) ("" ++ x))
    with (substituteGo tpl m TDollar (String d (k ++ String c y)) x).
  cbn [substituteGo].
  destruct (Ascii.eqb_spec d "$") as [-> | _]; [discriminate |].
  destruct (Ascii.eqb_spec d "{") as [-> | _]; [discriminate |].
  rewrite Hd, subst_named by exact Hk. cbn [append substituteGo].
  rewrite Hc, (eqb_neq_char c "$" Hcd).
  destruct (lookupMapping m (String d k)) as [v |]; cbn [bind]; [| reflexivity].
  rewrite subst_acc. destruct (substituteGo tpl m TText y ""); cbn [resMap bind]; [| reflexivity].
  rewrite !app_assoc_s. reflexivity.
Qed.

(** ** Runs of the test selection runner that stop at a failing process *)

Lemma last_app_ne : forall {A} (l1 l2 : list A) d, l2 <> [] -> last (l1 ++ l2)%list d = last l2 d.
Proof.
  induction l1 as [| x l1 IH]; intros l2 d H; [reflexivity |].
  cbn [app]. rewrite <- (IH l2 d H).
  destruct (l1 ++ l2)%list eqn:E; [apply app_eq_nil in E as [_ ->]; congruence | reflexivity].
Qed.

Section FailStops.
Variable w : Runner.world.

Lemma fs_ret : forall {A} (x : A), failStops w (Runner.ret x).
Proof.
  intros A x ev. exists []. split; [symmetry; apply app_nil_r | intros argv []].
Qed.

Lemma fs_raise : forall {A} e, failStops w (@Runner.raise A e).
Proof.
  intros A e ev. exists []. split; [symmetry; apply app_nil_r | intros argv []].
Qed.

Lemma fs_emit : forall e, (forall argv, e <> Runner.Run argv) -> failStops w (Runner.emit e).
Proof.
  intros e He ev. exists [e]. split; [reflexivity |].
  intros argv [E | []]. exfalso. exact (He argv E).
Qed.

Lemma fs_sub : forall argv, failStops w (Runner.subprocessRun w argv).
Proof.
  intros argv ev. exists [Runner.Run argv].
  unfold Runner.subprocessRun, Runner.bindM, Runner.emit.
  destruct (Nat.eqb_spec (Runner.proc_exit w argv) 0) as [H0 | H0];
    (split; [reflexivity |]); intros argv' [E | []]; injection E as <-; intros Hx.
  - contradiction.
  - split; reflexivity.
Qed.

Lemma fs_bind : forall {A B} (m : Runner.M A) (f : A -> Runner.M B),
  failStops w m -> (forall x, failStops w (f x)) -> failStops w (Runner.bindM m f).
Proof.
  intros A B m f Hm Hf ev. destruct (Hm ev) as [n1 [E1 H1]]. unfold Runner.bindM.
  destruct (m ev) as [ev' [x | e]] eqn:Em; cbn [fst] in E1; subst ev'.
  - destruct (Hf x (ev ++ n1)%list) as [n2 [E2 H2]]. exists (n1 ++ n2)%list.
    split; [rewrite E2, app_assoc; reflexivity |].
    intros argv Hin Hx. apply in_app_or in Hin as [Hin | Hin].
    + exfalso. destruct (H1 argv Hin Hx) as [_ Hr]. cbn [snd] in Hr. discriminate.
    + destruct (H2 argv Hin Hx) as [Hl Hr]. split; [| exact Hr].
      rewrite last_app_ne; [exact Hl | intros ->; destruct Hin].
  - exists n1. split; [reflexivity |].
    intros argv Hin Hx. destruct (H1 argv Hin Hx) as [Hl Hr]. cbn [snd] in Hr. injection Hr as ->. split; [exact Hl | reflexivity].
Qed.

Lemma fs_lift : forall {A} (r : res A), failStops w (Runner.liftRes r).
Proof. intros A [x | e]; [apply fs_ret | apply fs_raise]. Qed.

Lemma fs_buildTests : forall cfg flags, failStops w (Runner.buildTests w cfg flags).
Proof.
  intros [| t cfg] flags; unfold Runner.buildTests.
  - apply fs_emit. intros argv. discriminate.
  - apply fs_bind; [apply fs_emit; intros argv; discriminate | intros _; apply fs_sub].
Qed.

Lemma fs_runTests : forall cfg script flags, failStops w (Runner.runTests w cfg script flags).
Proof.
  intros cfg script flags. unfold Runner.runTests.
  apply fs_bind; [| intros tests; apply fs_sub].
  destruct (map fst cfg).
  - apply fs_bind; [apply fs_emit; intros argv; discriminate | intros _; apply fs_ret].
  - apply fs_ret.
Qed.

Lemma fs_main : forall a, failStops w (Runner.main w a).
Proof.
  intros a. unfold Runner.main. cbv zeta.
  destruct (negb (Runner.build a) && negb (Runner.test a)); [apply fs_raise |].
  destruct (_ && Runner.all a); [apply fs_raise |].
  destruct (Runner.all a).
  - apply fs_bind; intros;
      [destruct (Runner.build a) | destruct (Runner.test a)];
      try apply fs_ret;
      (apply fs_bind; [apply fs_emit; intros argv; discriminate | intros _; apply fs_sub]).
  - destruct (Runner.config a) as [path |]; [| apply fs_raise].
    destruct (FS.read (Runner.files w) path) as [text |]; [| apply fs_raise].
    apply fs_bind; [apply fs_lift | intros cfg].
    apply fs_bind; [apply fs_emit; intros argv; discriminate | intros _].
    apply fs_bind; intros;
      [destruct (Runner.build a); [apply fs_buildTests | apply fs_ret]
      | destruct (Runner.test a); [apply fs_runTests | apply fs_ret]].
Qed.

End FailStops.

End ExtraFacts.

Module Extras.
Import Scraper ScraperFacts TableFacts FSFacts PipelineFacts ExtraFacts.

(** [getEnclosedContent] returns what lies between the first [openKey] and
    its matching [closeKey]; text before the first [openKey] is skipped *)
Theorem getEnclosedContent_first_pair : forall o c pre X w,
  o <> c -> char_free o pre = true -> balanced o c X = true ->
  getEnclosedContent (pre ++ String o (X ++ String c w)) (String o "") (String c "") = Ok X.
Proof.
  intros o c pre X w Hoc Hpre HX.
  rewrite enclosed_skip_prefix by exact Hpre.
  exact (getEnclosedContent_balanced o c X w Hoc HX).
Qed.

Lemma getEnclosedContent_first_pair_witness :
  char_free "(" "f" = true /\ balanced "(" ")" "a(b)" = true /\
  getEnclosedContent ("f" ++ String "(" ("a(b)" ++ String ")" ", x);")) "(" ")" = Ok "a(b)".
Proof.
  split; [reflexivity |]. split; [reflexivity |].
  apply (getEnclosedContent_first_pair "(" ")" "f" "a(b)" ", x);");
    [discriminate | reflexivity | reflexivity].
Defined.

(** without any [openKey] in the string, [getEnclosedContent] returns the
    empty string and raises nothing *)
Theorem getEnclosedContent_no_open : forall o c s,
  o <> c -> char_free o s = true ->
  getEnclosedContent s (String o "") (String c "") = Ok "".
Proof.
  intros o c s Hoc Hs. unfold getEnclosedContent.
  rewrite partition_char_absent by exact Hs.
  change (String o "" ++ "") with (String o "").
  rewrite (partition_char_absent c (String o ""))
    by (rewrite char_free_cons, eqb_neq_char by congruence; reflexivity).
  rewrite enclosedLoop_eq, !count_char.
  change (String o "" ++ String c "") with (String o (String c "")).
  rewrite !ccount_cons, !Ascii.eqb_refl, (eqb_neq_char o c Hoc),
    (eqb_neq_char c o ltac:(congruence)).
  cbn [Nat.eqb ccount Nat.add].
  rewrite (partition_prefix (String o "") (String o (String c "")))
    by (rewrite prefix_char; apply Ascii.eqb_refl).
  change (drop (String.length (String o "")) (String o (String c ""))) with (String c "").
  pose proof (rpartition_char c "" "" eq_refl) as R. cbn [append] in R.
  rewrite R. reflexivity.
Qed.

Lemma getEnclosedContent_no_open_witness :
  char_free "<" "getParam(x)" = true /\
  getEnclosedContent "getParam(x)" "<" ">" = Ok "".
Proof.
  split; [reflexivity |].
  apply (getEnclosedContent_no_open "<" ">" "getParam(x)"); [discriminate | reflexivity].
Defined.

(** the first [openKey] of the string, when no key of either kind follows
    it, is not an error: the rest of the string after it is returned *)
Theorem getEnclosedContent_unclosed : forall o c pre t,
  o <> c -> char_free o pre = true -> char_free o t = true -> char_free c t = true ->
  getEnclosedContent (pre ++ String o t) (String o "") (String c "") = Ok t.
Proof.
  intros o c pre t Hoc Hpre Hot Hct.
  rewrite enclosed_skip_prefix by exact Hpre. unfold getEnclosedContent.
  rewrite (partition_prefix (String o "") (String o t))
    by (rewrite prefix_char; apply Ascii.eqb_refl).
  change (String o "" ++ drop (String.length (String o "")) (String o t)) with (String o t).
  rewrite (partition_char_absent c (String o t))
    by (rewrite char_free_cons, (eqb_neq_char c o ltac:(congruence)), Hct; reflexivity).
  rewrite enclosedLoop_eq, !count_char.
  change (String o t ++ String c "") with (String o (t ++ String c "")).
  rewrite !ccount_cons, !ccount_app, Ascii.eqb_refl, (eqb_neq_char c o ltac:(congruence)),
    (ccount_free o t Hot), (ccount_free c t Hct).
  rewrite (ccount_cons o c ""), (ccount_cons c c ""), !Ascii.eqb_refl, (eqb_neq_char o c Hoc).
  cbn [Nat.eqb ccount Nat.add].
  rewrite (partition_prefix (String o "") (String o (t ++ String c "")))
    by (rewrite prefix_char; apply Ascii.eqb_refl).
  change (drop (String.length (String o "")) (String o (t ++ String c "")))
    with (t ++ String c "").
  rewrite (rpartition_char c t "" eq_refl). reflexivity.
Qed.

Lemma getEnclosedContent_unclosed_witness :
  getEnclosedContent ("getParam<int>" ++ String "(" (dq ++ "A" ++ dq ++ ", 3")) "(" ")"
  = Ok (dq ++ "A" ++ dq ++ ", 3").
Proof.
  apply (getEnclosedContent_unclosed "(" ")" "getParam<int>" (dq ++ "A" ++ dq ++ ", 3"));
    first [discriminate | reflexivity].
Defined.

(** with non-empty keys, the only exception [getEnclosedContent] raises is
    its [IOError] about the keys it was given *)
Theorem getEnclosedContent_raises : forall s o c e,
  is_truthy o = true -> is_truthy c = true ->
  getEnclosedContent s o c = Raise e -> exists s', e = enclosedError o c s'.
Proof.
  intros s o c e _ _ H. unfold getEnclosedContent in H.
  destruct (partition s o) as [[? ?] after].
  destruct (partition (o ++ after) c) as [[r0 ?] r2].
  eexists. exact (enclosedLoop_raises _ _ _ _ _ _ _ H).
Qed.

Lemma getEnclosedContent_raises_witness :
  getEnclosedContent "((a)" "(" ")" = Raise (enclosedError "(" ")" "((a)") /\
  exists s', enclosedError "(" ")" "((a)" = enclosedError "(" ")" s'.
Proof.
  split; [vm_compute; reflexivity |].
  apply (getEnclosedContent_raises "((a)" "(" ")"); [reflexivity | reflexivity |].
  vm_compute. reflexivity.
Defined.

(** [getParamsFromFile] keeps, in order, the parameter of every line that
    has one and records, with its index and stripped text, every line whose
    [extractParamName] raises an [IOError]; it fails only with an
    [IndexError] raised on one of the lines *)
Theorem getParamsFromFile_result : forall lines,
  match getParamsFromFile lines with
  | Ok (ps, es) =>
      ps = flat_map lineParams lines /\
      es = flat_map lineErrors (combine (seq 0 (List.length lines)) lines)
  | Raise e => e = IndexError /\ exists line, In line lines /\ extractParamName line = Raise IndexError
  end.
Proof.
  intros lines. unfold getParamsFromFile. generalize 0 as idx.
  induction lines as [| l ls IH]; intros idx; [split; reflexivity |].
  cbn [scanLines]. specialize (IH (S idx)).
  destruct (extractParamName l) as [p | e] eqn:E.
  - destruct (scanLines (S idx) ls) as [[ps es] | e']; cbn [bind].
    + destruct IH as [-> ->]. cbn [flat_map List.length seq combine].
      assert (Hp : lineParams l = match p with Some q => [q] | None => [] end)
        by (unfold lineParams; rewrite E; reflexivity).
      assert (He : lineErrors (idx, l) = []) by (unfold lineErrors; cbn [snd]; rewrite E; reflexivity).
      rewrite Hp, He. split; [destruct p; reflexivity | reflexivity].
    + destruct IH as [He (line & Hin & Hl)]. split; [exact He |].
      exists line. split; [right; exact Hin | exact Hl].
  - destruct e as [m | | | | | | | | |];
      try (destruct (extract_raises l _ E) as [H | [m H]]; discriminate).
    + destruct (scanLines (S idx) ls) as [[ps es] | e']; cbn [bind].
      * destruct IH as [-> ->]. cbn [flat_map List.length seq combine].
        assert (Hp : lineParams l = []) by (unfold lineParams; rewrite E; reflexivity).
        assert (He : lineErrors (idx, l) = [mkLineError idx (strip whitespace l) (IOError m)])
          by (unfold lineErrors; cbn [snd fst]; rewrite E; reflexivity).
        rewrite Hp, He. split; reflexivity.
      * destruct IH as [He (line & Hin & Hl)]. split; [exact He |].
        exists line. split; [right; exact Hin | exact Hl].
    + split; [reflexivity |]. exists l. split; [left; reflexivity | exact E].
Qed.

(** the walk over the files keeps the parameters of the scanned ones, in
    order; it fails only with an [IndexError] *)
Theorem collectParameters_result : forall files,
  match collectParameters files with
  | Ok ps => ps = flat_map (fun fl => if isScanned (fst fl) then flat_map lineParams (snd fl)
                                      else []) files
  | Raise e => e = IndexError
  end.
Proof.
  induction files as [| [file lines] files IH]; [reflexivity |].
  cbn [collectParameters flat_map fst snd].
  destruct (isScanned file).
  - pose proof (getParamsFromFile_result lines) as Hl.
    destruct (getParamsFromFile lines) as [[ps es] | e]; cbn [bind]; [| apply Hl].
    destruct (collectParameters files) as [ps' | e']; cbn [bind]; [| exact IH].
    destruct Hl as [-> _]. rewrite IH. reflexivity.
  - exact IH.
Qed.

(** the walk reads a file exactly when its name is [root.hh] for a [root]
    other than [parameters] that is not made of dots only
    ([os.path.splitext] leaves names like [.hh] whole) *)
Theorem isScanned_iff : forall file,
  isScanned file = true <->
  exists root, file = root ++ ".hh" /\ root <> "parameters" /\
    forallb (fun c => Ascii.eqb c ".") (list_ascii_of_string root) = false.
Proof.
  intros file. unfold isScanned, splitext. split.
  - destruct (rpartition file ".") as [[r m] ext] eqn:E.
    destruct m as [| d m'].
    + intros H. apply andb_true_iff in H as [H _]. discriminate.
    + destruct (rpartition_found _ _ _ _ _ E ltac:(discriminate)) as [Hm Hf].
      destruct (forallb _ _) eqn:F.
      * intros H. apply andb_true_iff in H as [H _]. discriminate.
      * intros H. apply andb_true_iff in H as [H1 H2].
        apply String.eqb_eq in H1. apply negb_true_iff, String.eqb_neq in H2.
        exists r. split; [| split; [exact H2 | exact F]].
        rewrite Hf, H1. reflexivity.
  - intros (root & -> & Hr & F).
    rewrite (rpartition_char "." root "hh" eq_refl), F.
    rewrite (proj2 (String.eqb_neq root "parameters") Hr). reflexivity.
Qed.

(** a dotted name is its group, a dot and its short name, and the group
    holds no dot *)
Theorem group_short_name : forall e, isGrouped e = true ->
  groupLabel e ++ "." ++ shortName e = eName e /\ char_free "." (groupLabel e) = true.
Proof.
  intros e H. unfold groupLabel, shortName. rewrite H. unfold isGrouped in H.
  assert (Hc : char_free "." (eName e) = false).
  { destruct (char_free "." (eName e)) eqn:F; [| reflexivity].
    rewrite count_char, (ccount_free _ _ F) in H. discriminate. }
  destruct (first_occurrence _ _ Hc) as (a & b & Ha & Es). rewrite Es.
  rewrite split_app_char, (split_free "." a Ha). cbn [hd app].
  rewrite (partition_char "." a b Ha). split; [reflexivity | exact Ha].
Qed.

Lemma group_short_name_witness :
  isGrouped (mkEntry "Grid.Cells" ["int"] [None]) = true /\
  groupLabel (mkEntry "Grid.Cells" ["int"] [None]) ++ "." ++
    shortName (mkEntry "Grid.Cells" ["int"] [None]) = eName (mkEntry "Grid.Cells" ["int"] [None]) /\
  char_free "." (groupLabel (mkEntry "Grid.Cells" ["int"] [None])) = true.
Proof.
  split; [reflexivity |]. apply group_short_name. reflexivity.
Defined.

(** [sortedParameterDict] has one entry per parameter name met, and an
    entry's types and defaults are those of all the occurrences of its name,
    in the order they were met *)
Theorem parameter_dict_entries : forall ps,
  NoDup (map eName (sortedParameterDict ps)) /\
  (forall n, In n (map eName (sortedParameterDict ps)) <-> In n (map paramName ps)) /\
  (forall e, In e (sortedParameterDict ps) ->
     eTypes e = map paramType (filter (fun p => String.eqb (paramName p) (eName e)) ps) /\
     eDefaults e = map defaultValue (filter (fun p => String.eqb (paramName p) (eName e)) ps)).
Proof.
  intros ps. destruct (build_inv ps) as [Hnd HF].
  pose proof (sorted_perm ps) as Hp.
  split; [| split].
  - apply (Permutation_NoDup (Permutation_sym (Permutation_map eName Hp)) Hnd).
  - intros n. split.
    + intros Hin. apply (Permutation_in _ (Permutation_map eName Hp)) in Hin.
      apply in_map_iff in Hin as (e & <- & Hin).
      pose proof (HF (eName e)) as Hf. rewrite (find_nodup _ _ Hnd Hin) in Hf.
      destruct (in_dec string_dec (eName e) (map paramName ps)) as [H | H]; [exact H |].
      apply filter_nil_iff in H. rewrite H in Hf. discriminate.
    + intros Hin. apply (Permutation_in _ (Permutation_map eName (Permutation_sym Hp))).
      pose proof (HF n) as Hf.
      destruct (filter _ ps) as [| q F] eqn:E.
      * apply filter_nil_iff in E. contradiction.
      * destruct (find _ (buildParameterDict ps)) as [x |] eqn:Ex; [| discriminate].
        apply find_some in Ex as [Hx Hn]. apply String.eqb_eq in Hn.
        rewrite <- Hn. now apply in_map.
  - intros e Hin. apply (Permutation_in _ Hp) in Hin.
    pose proof (HF (eName e)) as Hf. rewrite (find_nodup _ _ Hnd Hin) in Hf.
    destruct (filter _ ps) as [| q F] eqn:E; [discriminate |].
    injection Hf as He. split; rewrite He at 1; reflexivity.
Qed.

(** building the table never raises: it has one row per entry of
    [sortedParameterDict] *)
Theorem tableEntries_rows : forall ps,
  exists rows, tableEntries ps = Ok rows /\
    List.length rows = List.length (sortedParameterDict ps).
Proof.
  intros ps. unfold tableEntries. change (@None string) with (option_map groupLabel (@None entry)).
  rewrite tableLoop_rows by apply sorted_wf. cbn [bind app].
  eexists. split; [reflexivity |].
  rewrite length_app. unfold renderRows. rewrite !length_map, Nat.add_comm.
  rewrite (length_filter_split _ (fun pe => isGrouped (snd pe))). apply withPrev_length.
Qed.

Import Pipeline.

(** [makeScriptString] puts each command on a line of its own, after the
    indentation and [- ], as long as neither holds a line break *)
Theorem makeScriptString_lines : forall ind cmds,
  char_free "010" ind = true -> Forall (fun c => char_free "010" c = true) cmds -> cmds <> [] ->
  split (makeScriptString ind cmds) nl = map (fun c => ind ++ "- " ++ c) cmds.
Proof.
  intros ind cmds Hi Hc Hne. unfold makeScriptString.
  apply (split_join "010"); [destruct cmds; [congruence | discriminate] |].
  apply Forall_map. eapply Forall_impl; [| exact Hc]. intros c H. cbn beta.
  rewrite !char_free_app, Hi, H. reflexivity.
Qed.

Lemma makeScriptString_lines_witness :
  split (makeScriptString "    " (fst (scriptCommands "    " None))) nl =
  map (fun c => "    " ++ "- " ++ c) (fst (scriptCommands "    " None)).
Proof.
  apply makeScriptString_lines; [reflexivity | repeat constructor | discriminate].
Defined.

(** [substitute] copies text without [$] and replaces a [${name}]
    placeholder by its value in the mapping; a name missing from the
    mapping raises [KeyError] *)
Theorem substitute_placeholder : forall m x k y,
  char_free "$" x = true -> isIdent k = true ->
  (forall v r, lookupMapping m k = Ok v -> substitute y m = Ok r ->
     substitute (x ++ "${" ++ k ++ "}" ++ y) m = Ok (x ++ v ++ r)) /\
  (~ In k (map fst m) -> substitute (x ++ "${" ++ k ++ "}" ++ y) m = Raise (KeyError k)).
Proof.
  intros m x k y Hx Hk. unfold substitute.
  rewrite (subst_placeholder_go _ m x k y Hx Hk). split.
  - intros v r Hv Hr. rewrite Hv. cbn [bind].
    rewrite (subst_tpl_ok y _ m y TText "" r Hr). reflexivity.
  - intros Hn. rewrite (lookup_missing m k Hn). reflexivity.
Qed.

Lemma substitute_placeholder_witness :
  substitute ("build:" ++ "${" ++ "build_script" ++ "}" ++ " end") [("build_script", "make")]
  = Ok ("build:" ++ "make" ++ " end").
Proof.
  apply (substitute_placeholder [("build_script", "make")] "build:" "build_script" " end");
    reflexivity.
Defined.

(** text without [$] comes out of [substitute] unchanged, and [$$] gives
    one [$] *)
Theorem substitute_text_escape : forall m x y r, char_free "$" x = true ->
  substitute x m = Ok x /\
  (substitute y m = Ok r -> substitute (x ++ "$$" ++ y) m = Ok (x ++ "$" ++ r)).
Proof.
  intros m x y r Hx. unfold substitute. split.
  - rewrite <- (app_nil_r_s x) at 2. rewrite subst_text by exact Hx. reflexivity.
  - intros Hr. rewrite subst_text by exact Hx.
    change (substituteGo (x ++ "$$" ++ y) m TText ("$$" ++ y) ("" ++ x))
      with (substituteGo (x ++ "$$" ++ y) m TText y (x ++ "$")).
    rewrite subst_acc, (subst_tpl_ok y _ m y TText "" r Hr). cbn [resMap bind].
    rewrite app_assoc_s. reflexivity.
Qed.

Lemma substitute_text_escape_witness :
  substitute "cost: 5" [] = Ok "cost: 5" /\
  (substitute " each" [] = Ok " each" ->
   substitute ("cost: 5" ++ "$$" ++ " each") [] = Ok ("cost: 5" ++ "$" ++ " each")).
Proof. apply substitute_text_escape. reflexivity. Defined.

(** without a test configuration, once [outfile] is opened the run writes
    the substituted template there, or leaves it empty if substitution
    raises; no other file changes *)
Theorem pipeline_default_run : forall w a n t,
  indentation a = IndentInt n -> testconfig a = None -> outfile a <> template a ->
  FS.read (files w) (template a) = Some t ->
  (forall q, q <> outfile a -> FS.read (fst (pipelineMain w a)) q = FS.read (files w) q) /\
  match substitute t
          [("build_script",
            makeScriptString (str_repeat n " ") (fst (scriptCommands (str_repeat n " ") None)));
           ("test_script",
            makeScriptString (str_repeat n " ") (snd (scriptCommands (str_repeat n " ") None)))]
  with
  | Ok out => snd (pipelineMain w a) = Ok tt /\ FS.read (fst (pipelineMain w a)) (outfile a) = Some out
  | Raise e => snd (pipelineMain w a) = Raise e /\ FS.read (fst (pipelineMain w a)) (outfile a) = Some ""
  end.
Proof.
  intros w a n t Hi Htc Hne Ht. unfold pipelineMain. rewrite Hi, Htc. cbn [commandIndentation].
  destruct (scriptCommands (str_repeat n " ") None) as [b tc]. cbn [fst snd].
  unfold substituteAndWrite.
  rewrite exists_write_other by exact Hne. unfold FS.exists_. rewrite Ht. cbn [negb].
  rewrite !read_write_other by exact Hne. rewrite Ht.
  destruct (substitute t _) as [out | e]; cbn [fst snd].
  - split; [intros q Hq; rewrite !read_write_other by congruence; reflexivity |].
    split; [reflexivity | apply read_write_same].
  - split; [intros q Hq; rewrite !read_write_other by congruence; reflexivity |].
    split; [reflexivity | apply read_write_same].
Qed.

Lemma pipeline_default_run_witness :
  (forall q, q <> "out.yml" ->
     FS.read (fst (pipelineMain (mkWorld [("tpl", "b: ${build_script}")] (fun _ => Ok []))
                                (mkArgs "out.yml" None "tpl" (IndentInt 4)))) q
     = FS.read [("tpl", "b: ${build_script}")] q) /\
  match substitute "b: ${build_script}"
          [("build_script",
            makeScriptString (str_repeat 4 " ") (fst (scriptCommands (str_repeat 4 " ") None)));
           ("test_script",
            makeScriptString (str_repeat 4 " ") (snd (scriptCommands (str_repeat 4 " ") None)))]
  with
  | Ok out => snd (pipelineMain (mkWorld [("tpl", "b: ${build_script}")] (fun _ => Ok []))
                                (mkArgs "out.yml" None "tpl" (IndentInt 4))) = Ok tt /\
              FS.read (fst (pipelineMain (mkWorld [("tpl", "b: ${build_script}")] (fun _ => Ok []))
                                         (mkArgs "out.yml" None "tpl" (IndentInt 4)))) "out.yml"
              = Some out
  | Raise e => snd (pipelineMain (mkWorld [("tpl", "b: ${build_script}")] (fun _ => Ok []))
                                 (mkArgs "out.yml" None "tpl" (IndentInt 4))) = Raise e /\
               FS.read (fst (pipelineMain (mkWorld [("tpl", "b: ${build_script}")] (fun _ => Ok []))
                                          (mkArgs "out.yml" None "tpl" (IndentInt 4)))) "out.yml"
               = Some ""
  end.
Proof.
  apply (pipeline_default_run (mkWorld [("tpl", "b: ${build_script}")] (fun _ => Ok []))
           (mkArgs "out.yml" None "tpl" (IndentInt 4)) 4 "b: ${build_script}");
    first [reflexivity | discriminate].
Defined.

(** a test configuration file that does not exist makes the run fail with
    [FileNotFoundError] after [outfile] has been emptied *)
Theorem pipeline_missing_config : forall w a n p,
  indentation a = IndentInt n -> testconfig a = Some p -> is_truthy p = true ->
  p <> outfile a -> FS.read (files w) p = None ->
  pipelineMain w a = (FS.write (files w) (outfile a) "", Raise (FileNotFoundError p)).
Proof.
  intros w a n p Hi Htc Hp Hne Hr. unfold pipelineMain. rewrite Hi, Htc. cbn [commandIndentation].
  rewrite Hp, read_write_other by congruence. rewrite Hr. reflexivity.
Qed.

Lemma pipeline_missing_config_witness :
  pipelineMain (mkWorld [("out.yml", "old")] (fun _ => Ok []))
    (mkArgs "out.yml" (Some "sel.json") "tpl" (IndentInt 4))
  = (FS.write [("out.yml", "old")] "out.yml" "", Raise (FileNotFoundError "sel.json")).
Proof.
  apply (pipeline_missing_config (mkWorld [("out.yml", "old")] (fun _ => Ok []))
           (mkArgs "out.yml" (Some "sel.json") "tpl" (IndentInt 4)) 4 "sel.json");
    first [reflexivity | discriminate].
Defined.

(** a bare [$name] placeholder, ended by a character that cannot continue
    a name, is also looked up in the mapping: a name missing from it (such
    as a CI variable) makes [substitute] raise [KeyError] *)
Theorem substitute_named_placeholder : forall m x k c y,
  char_free "$" x = true -> isIdent k = true -> isIdChar c = false -> c <> "$"%char ->
  (forall v r, lookupMapping m k = Ok v -> substitute y m = Ok r ->
     substitute (x ++ "$" ++ k ++ String c y) m = Ok (x ++ v ++ String c r)) /\
  (~ In k (map fst m) -> substitute (x ++ "$" ++ k ++ String c y) m = Raise (KeyError k)).
Proof.
  intros m x k c y Hx Hk Hc Hcd. unfold substitute.
  rewrite (subst_named_go _ m x k c y Hx Hk Hc Hcd). split.
  - intros v r Hv Hr. rewrite Hv. cbn [bind].
    rewrite (subst_tpl_ok y _ m y TText "" r Hr). reflexivity.
  - intros Hn. rewrite (lookup_missing m k Hn). reflexivity.
Qed.

Lemma substitute_named_placeholder_witness :
  substitute ("echo " ++ "$" ++ "CI_JOB_ID" ++ String " " "done") [("build_script", "make")]
  = Raise (KeyError "CI_JOB_ID").
Proof.
  apply (substitute_named_placeholder [("build_script", "make")] "echo " "CI_JOB_ID" " " "done");
    [reflexivity | reflexivity | reflexivity | discriminate |].
  intros [H | []]. discriminate H.
Defined.

Import Runner.

(** a process that exits non-zero stops the runner: its run is the last
    event, and the run ends in [CalledProcessError] for it *)
Theorem failing_process_stops_run : forall w a argv,
  In (Run argv) (fst (runMain w a)) -> proc_exit w argv <> 0 ->
  last (fst (runMain w a)) (Print "") = Run argv /\
  snd (runMain w a) = Raise (CalledProcessError argv).
Proof.
  intros w a argv Hin Hx. unfold runMain in *.
  destruct (fs_main w a []) as [new [E H]]. cbn [app] in E. rewrite E in *.
  exact (H argv Hin Hx).
Qed.

Lemma failing_process_stops_run_witness :
  last (fst (runMain (mkWorld [] (fun _ => Ok [])
                              (fun argv => match argv with "make" :: _ => 2 | _ => 0 end))
                     (mkArgs true None "" true true "-j4" "-j4 --output-on-failure")))
       (Print "") = Run ["make"; "-j4"; "build_tests"] /\
  snd (runMain (mkWorld [] (fun _ => Ok [])
                        (fun argv => match argv with "make" :: _ => 2 | _ => 0 end))
               (mkArgs true None "" true true "-j4" "-j4 --output-on-failure"))
  = Raise (CalledProcessError ["make"; "-j4"; "build_tests"]).
Proof.
  apply failing_process_stops_run.
  - vm_compute. right. left. reflexivity.
  - vm_compute. discriminate.
Defined.

(** the flags are cut at every single space: joining the pieces with a
    space gives the flags back, and no piece holds a space (two spaces in a
    row give an empty piece) *)
Theorem flags_split_round_trip : forall flags,
  join " " (split flags " ") = flags /\
  Forall (fun x => char_free " " x = true) (split flags " ").
Proof.
  intros flags. split; [apply (join_split " ") |].
  apply Forall_forall. intros x Hx. exact (split_parts_free " " flags x Hx).
Qed.

(** with [--all] (and no truthy [--config]), when every process succeeds,
    the runner builds with [make ... build_tests] and then tests with
    [ctest ...], each as asked *)
Theorem all_mode_run : forall w a,
  all a = true -> (build a || test a) = true ->
  match config a with Some c => is_truthy c | None => false end = false ->
  (forall argv, proc_exit w argv = 0) ->
  runMain w a =
  (((if build a then [Print "Building all tests";
                      Run ("make" :: split (buildflags a) " " ++ ["build_tests"])] else [])
    ++ (if test a then [Print "Running all tests"; Run ("ctest" :: split (testflags a) " ")]
        else []))%list, Ok tt).
Proof.
  intros w a Hall Hbt Hc Hx.
  unfold runMain, main, subprocessRun, bindM, emit, ret. cbv zeta.
  rewrite Hall, Hc, !Hx. cbn [Nat.eqb andb].
  destruct (build a), (test a); try discriminate; reflexivity.
Qed.

Lemma all_mode_run_witness :
  runMain (mkWorld [] (fun _ => Ok []) (fun _ => 0))
          (mkArgs true None "" true true "-j4  -k" "-j4 --output-on-failure")
  = ([Print "Building all tests"; Run ["make"; "-j4"; ""; "-k"; "build_tests"];
      Print "Running all tests"; Run ["ctest"; "-j4"; "--output-on-failure"]], Ok tt).
Proof.
  rewrite all_mode_run; [vm_compute; reflexivity | reflexivity | reflexivity | reflexivity |].
  intros argv. reflexivity.
Defined.

(** without [--all], a missing [--config] raises [TypeError] and a
    configuration file that does not exist raises [FileNotFoundError];
    nothing is printed or run before *)
Theorem selection_config_errors : forall w a,
  all a = false -> (build a || test a) = true ->
  match config a with
  | None => runMain w a = ([], Raise TypeError)
  | Some p => FS.read (files w) p = None -> runMain w a = ([], Raise (FileNotFoundError p))
  end.
Proof.
  intros w a Hall Hbt. unfold runMain, main. cbv zeta.
  rewrite Hall, andb_false_r.
  destruct (build a), (test a); try discriminate; cbn [negb andb];
    (destruct (config a) as [p |]; [intros Hr; rewrite Hr |]; reflexivity).
Qed.

Lemma selection_config_errors_witness :
  runMain (mkWorld [] (fun _ => Ok []) (fun _ => 0))
          (mkArgs false (Some "sel.json") "" true true "-j4" "-j4")
  = ([], Raise (FileNotFoundError "sel.json")).
Proof.
  exact (selection_config_errors (mkWorld [] (fun _ => Ok []) (fun _ => 0))
           (mkArgs false (Some "sel.json") "" true true "-j4" "-j4") eq_refl eq_refl eq_refl).
Defined.

(** an empty selection builds nothing and runs the test script (or
    [dune-ctest]) with the filter [-R NOOP] *)
Theorem empty_selection_run : forall w a p text,
  all a = false -> config a = Some p -> FS.read (files w) p = Some text ->
  json_load w text = Ok [] -> build a = true -> test a = true ->
  let argv := List.app (if is_truthy (script a) then ["./" ++ lstrip "./" (script a)]
                        else ["dune-ctest"])
                       (List.app (split (testflags a) " ") ["-R"; "NOOP"]) in
  runMain w a =
  ([Print "0 tests found in the configuration file"; Print "No tests to be built";
    Print "No tests to be run. Letting dune-ctest produce empty report."; Run argv],
   if Nat.eqb (proc_exit w argv) 0 then Ok tt else Raise (CalledProcessError argv)).
Proof.
  intros w a p text Hall Hc Hr Hj Hb Ht argv.
  unfold runMain, main, runTests, buildTests, subprocessRun, liftRes, bindM, emit, ret, raise.
  cbv zeta. rewrite Hall, Hb, Ht, Hc, (andb_false_r (is_truthy p)), Hr, Hj. cbn [negb andb map].
  unfold argv. destruct (Nat.eqb _ 0); reflexivity.
Qed.

Lemma empty_selection_run_witness :
  runMain (mkWorld [("sel.json", "{}")] (fun _ => Ok []) (fun _ => 0))
          (mkArgs false (Some "sel.json") "" true true "-j4" "-j4")
  = ([Print "0 tests found in the configuration file"; Print "No tests to be built";
      Print "No tests to be run. Letting dune-ctest produce empty report.";
      Run ["dune-ctest"; "-j4"; "-R"; "NOOP"]], Ok tt).
Proof.
  exact (empty_selection_run (mkWorld [("sel.json", "{}")] (fun _ => Ok []) (fun _ => 0))
           (mkArgs false (Some "sel.json") "" true true "-j4" "-j4") "sel.json" "{}"
           eq_refl eq_refl eq_refl eq_refl eq_refl eq_refl).
Defined.

(** [script.lstrip('./')] drops every leading [.] and [/], not a [./]
    prefix: a script made of a run [pre] of [.] and [/] followed by [rest]
    is called as [./rest], so [../bin/x] or [/usr/bin/x] is called as
    [./bin/x] or [./usr/bin/x], and a script [./] as [./]; with an empty
    selection the filter is [-R NOOP], after a message *)
Theorem runTests_script_call : forall w cfg pre rest flags ev,
  all_in "./" pre = true ->
  match rest with EmptyString => is_truthy pre = true | String d _ => mem d "./" = false end ->
  let tests := match map fst cfg with [] => ["NOOP"] | ts => ts end in
  let argv := ("./" ++ rest) :: (flags ++ "-R" :: tests)%list in
  runTests w cfg (pre ++ rest) flags ev =
  ((ev ++ match map fst cfg with
          | [] => [Print "No tests to be run. Letting dune-ctest produce empty report."; Run argv]
          | _ => [Run argv]
          end)%list,
   if Nat.eqb (proc_exit w argv) 0 then Ok tt else Raise (CalledProcessError argv)).
Proof.
  intros w cfg pre rest flags ev Hp Hr tests argv.
  assert (Ht : is_truthy (pre ++ rest) = true)
    by (destruct rest as [| d z]; [rewrite app_nil_r_s; exact Hr | destruct pre; reflexivity]).
  assert (Hl : lstrip "./" (pre ++ rest) = rest)
    by (rewrite lstrip_all_app by exact Hp;
        destruct rest as [| d z]; [reflexivity | apply lstrip_keep; exact Hr]).
  unfold runTests, subprocessRun, bindM, emit, ret, raise. rewrite Ht, Hl.
  unfold argv, tests. destruct (map fst cfg) as [| t ts].
  - rewrite <- app_assoc. destruct (Nat.eqb _ 0); reflexivity.
  - destruct (Nat.eqb _ 0); reflexivity.
Qed.

Lemma runTests_script_call_witness :
  runTests (mkWorld [] (fun _ => Ok []) (fun _ => 0)) [] ("../" ++ "bin/dune-ctest") ["-j4"] []
  = ([Print "No tests to be run. Letting dune-ctest produce empty report.";
      Run ["./bin/dune-ctest"; "-j4"; "-R"; "NOOP"]], Ok tt).
Proof.
  exact (runTests_script_call (mkWorld [] (fun _ => Ok []) (fun _ => 0)) []
           "../" "bin/dune-ctest" ["-j4"] [] eq_refl eq_refl).
Defined.

End Extras.
